(** * MIDI decoding and oscillator voice bookkeeping

    A shallow embedding of two pieces of the synthesizer:

    - [getEventForData], the function of the MIDI input element that turns the
      bytes of a MIDI message into one of the custom events [noteOn],
      [noteOff], [pitchWheel], [modWheel], [sustainOn], [sustainOff];
    - [BaseOscillator], the class that keeps one oscillator and gain node per
      sounding note ([activeNotes]), the sustain pedal ([sustainActive],
      [sustainedNotes]) and the detune of the pitch fader.

    JavaScript numbers are IEEE 754 binary64 values: they are modelled by the
    kernel's primitive floats, whose [+], [-], [*] and [/] are the binary64
    operations.  The elements of a [Uint8Array] are bytes, and note numbers are
    integers ([Z]), converted to floats where the code computes with them. *)

From Stdlib Require Import ZArith List Bool Lia.
From Stdlib Require Import Strings.Byte Strings.Ascii.
From Stdlib Require Import Floats.PrimFloat.
From stdpp Require Import gmap list strings.

Open Scope Z_scope.

#[local] Set Warnings "-inexact-float".

(** ** JavaScript numbers *)

(** The float with the value of a positive integer; exact below 2^53, which
    covers every byte, note number and 16-bit value of this program. *)
Fixpoint pos_to_float (p : positive) : float :=
  match p with
  | xH => 1%float
  | xO q => (2 * pos_to_float q)%float
  | xI q => (2 * pos_to_float q + 1)%float
  end.

Definition Z_to_float (z : Z) : float :=
  match z with
  | Z0 => 0%float
  | Zpos p => pos_to_float p
  | Zneg p => (- pos_to_float p)%float
  end.

(** [ToBoolean] on a number: [+0], [-0] and [NaN] are falsy. *)
Definition truthy (x : float) : bool :=
  negb (PrimFloat.eqb x 0%float) && PrimFloat.eqb x x.

(** The value of a byte of a [Uint8Array]. *)
Definition byte_to_Z (b : byte) : Z := Z.of_N (Byte.to_N b).

(** [data[i]] and the elements bound by [const [, note, value] = data]:
    [None] stands for [undefined], read past the end of the array. *)
Definition element (data : list byte) (i : nat) : option Z :=
  byte_to_Z <$> data !! i.

(** [ToNumber]: [undefined] becomes [NaN]. *)
Definition ToNumber (x : option Z) : float :=
  match x with
  | Some z => Z_to_float z
  | None => nan
  end.

(** [ToInt32] on a byte or [undefined]: [undefined] becomes [0]. *)
Definition ToInt32 (x : option Z) : Z :=
  match x with
  | Some z => z
  | None => 0
  end.

(** [x << n] on 32-bit integers: the shifted value wrapped to the signed
    32-bit range. *)
Definition wrap_int32 (z : Z) : Z := (z + 2 ^ 31) mod 2 ^ 32 - 2 ^ 31.

Definition shl32 (x : Z) (n : Z) : Z := wrap_int32 (Z.shiftl x (n mod 32)).

(** All 256 bytes, in order. *)
Definition all_bytes : list byte :=
  omap Byte.of_N (N.of_nat <$> seq 0 256).

(** ** The MIDI decoder *)

Module MIDICommand.
Definition NOTE_OFF : Z := 0x80.
Definition NOTE_ON : Z := 0x90.
Definition CONTROL_CHANGE : Z := 0xb0.
Definition PITCH_WHEEL : Z := 0xe0.
End MIDICommand.

Module MIDIControlChange.
Definition MODWHEEL : Z := 0x01.
Definition SUSTAIN : Z := 0x40.
End MIDIControlChange.

Definition NUM_MIDI_CHANNELS : Z := 16.

(** The custom events [getEventForData] builds: the event type with the fields
    of its [detail].  [note] is an element of the message, so it is
    [undefined] ([None]) when the message is too short. *)
Inductive MIDIEvent : Type :=
| noteOn (channel : Z) (note : option Z) (velocity : float)
| noteOff (channel : Z) (note : option Z)
| pitchWheel (value : float)
| modWheel (value : float)
| sustainOn (channel : Z)
| sustainOff (channel : Z).

(** [getEventForData(data)]; [None] is the function returning nothing.

    With [data[0]] undefined both range tests are false (comparisons with
    [NaN]), channel and command are [NaN], every [===] test fails and the
    function falls off its end: the first [match] returns [None] there. *)
Definition getEventForData (data : list byte) : option MIDIEvent :=
  match element data 0 with
  | None => None
  | Some data0 =>
    if (data0 <? MIDICommand.NOTE_OFF)
       || (data0 >=? MIDICommand.PITCH_WHEEL + NUM_MIDI_CHANNELS)
    then None
    else
      let channel := Z.rem data0 NUM_MIDI_CHANNELS in
      let command := data0 - channel in
      if (command =? MIDICommand.NOTE_ON) || (command =? MIDICommand.NOTE_OFF)
      then
        let note := element data 1 in
        let value := element data 2 in
        let velocity := (ToNumber value / 0xff)%float in
        if (command =? MIDICommand.NOTE_ON) && truthy velocity
        then Some (noteOn channel note velocity)
        else Some (noteOff channel note)
      else if command =? MIDICommand.PITCH_WHEEL
      then
        let value :=
          ((ToNumber (element data 1)
            + Z_to_float (shl32 (ToInt32 (element data 2)) 8)) / 0xffff)%float in
        Some (pitchWheel value)
      else if command =? MIDICommand.CONTROL_CHANGE
      then
        let control := element data 1 in
        let value := element data 2 in
        if bool_decide (control = Some MIDIControlChange.MODWHEEL)
        then Some (modWheel (ToNumber value / 0xff)%float)
        else if bool_decide (control = Some MIDIControlChange.SUSTAIN)
        then
          if truthy (ToNumber value)
          then Some (sustainOn channel)
          else Some (sustainOff channel)
        else None
      else None
  end.

(** Whether the decoder answered with a [noteOn] event. *)
Definition is_noteOn (e : option MIDIEvent) : bool :=
  match e with
  | Some (noteOn _ _ _) => true
  | _ => false
  end.

(** The pitch wheel value spelled by two data bytes, as the decoder's
    contract states it. *)
Definition pitch_value (lsb msb : byte) : float :=
  ((Z_to_float (byte_to_Z lsb) + Z_to_float (byte_to_Z msb) * 256)
   / 65535)%float.

(** ** The oscillator *)

Inductive Waveform : Type := sawtooth | sine | square | triangle.

(** An [OscillatorNode]: its [detune] and [frequency] parameters, its [type],
    whether [stop()] has been called on it (it is started when it is
    created), and whether it is still connected to its gain node. *)
Record OscillatorNode : Type := {
  osc_detune : float;
  osc_frequency : float;
  osc_type : Waveform;
  osc_stopped : bool;
  osc_connected : bool
}.

(** A [GainNode]: its [gain] parameter and whether it is still connected to
    the destination. *)
Record GainNode : Type := {
  gain_gain : float;
  gain_connected : bool
}.

(** What one call of [start] allocates: the two audio nodes and the [stop]
    closure of the [activeNotes] entry.  The closure captures the oscillator
    and the variable [note]; [stop_note] is that captured variable. *)
Record Voice : Type := {
  oscillator : OscillatorNode;
  gain : GainNode;
  stop_note : Z
}.

(** The fields of a [BaseOscillator].  The entries of [activeNotes] are
    references to the voices of [voices], the store of everything [start] has
    allocated, in order of allocation.  [sustainedNotes] is the entry list of
    a JavaScript [Set]: [add] appends, [delete] leaves an empty slot ([None])
    behind, and an iterator walks the list by index. *)
Record BaseOscillator : Type := {
  activeNotes : gmap Z nat;
  detune : float;
  detuneAmount : float;
  stickyPitchBend : bool;
  sustainActive : bool;
  sustainedNotes : list (option Z);
  waveform : Waveform;
  isNoteOn : bool;
  voices : list Voice
}.

Definition set_activeNotes (m : gmap Z nat) (o : BaseOscillator) :=
  {| activeNotes := m; detune := detune o; detuneAmount := detuneAmount o;
     stickyPitchBend := stickyPitchBend o; sustainActive := sustainActive o;
     sustainedNotes := sustainedNotes o; waveform := waveform o;
     isNoteOn := isNoteOn o; voices := voices o |}.

Definition set_detune (d : float) (o : BaseOscillator) :=
  {| activeNotes := activeNotes o; detune := d; detuneAmount := detuneAmount o;
     stickyPitchBend := stickyPitchBend o; sustainActive := sustainActive o;
     sustainedNotes := sustainedNotes o; waveform := waveform o;
     isNoteOn := isNoteOn o; voices := voices o |}.

Definition set_detuneAmount (a : float) (o : BaseOscillator) :=
  {| activeNotes := activeNotes o; detune := detune o; detuneAmount := a;
     stickyPitchBend := stickyPitchBend o; sustainActive := sustainActive o;
     sustainedNotes := sustainedNotes o; waveform := waveform o;
     isNoteOn := isNoteOn o; voices := voices o |}.

Definition set_sustainActive (b : bool) (o : BaseOscillator) :=
  {| activeNotes := activeNotes o; detune := detune o;
     detuneAmount := detuneAmount o; stickyPitchBend := stickyPitchBend o;
     sustainActive := b; sustainedNotes := sustainedNotes o;
     waveform := waveform o; isNoteOn := isNoteOn o; voices := voices o |}.

Definition set_sustainedNotes (s : list (option Z)) (o : BaseOscillator) :=
  {| activeNotes := activeNotes o; detune := detune o;
     detuneAmount := detuneAmount o; stickyPitchBend := stickyPitchBend o;
     sustainActive := sustainActive o; sustainedNotes := s;
     waveform := waveform o; isNoteOn := isNoteOn o; voices := voices o |}.

Definition set_isNoteOn (b : bool) (o : BaseOscillator) :=
  {| activeNotes := activeNotes o; detune := detune o;
     detuneAmount := detuneAmount o; stickyPitchBend := stickyPitchBend o;
     sustainActive := sustainActive o; sustainedNotes := sustainedNotes o;
     waveform := waveform o; isNoteOn := b; voices := voices o |}.

Definition set_voices (vs : list Voice) (o : BaseOscillator) :=
  {| activeNotes := activeNotes o; detune := detune o;
     detuneAmount := detuneAmount o; stickyPitchBend := stickyPitchBend o;
     sustainActive := sustainActive o; sustainedNotes := sustainedNotes o;
     waveform := waveform o; isNoteOn := isNoteOn o; voices := vs |}.

(** The field initialisers of the class. *)
Definition new_BaseOscillator : BaseOscillator :=
  {| activeNotes := ∅; detune := 0%float; detuneAmount := 2%float;
     stickyPitchBend := false; sustainActive := false; sustainedNotes := [];
     waveform := sine; isNoteOn := false; voices := [] |}.

(** *** The [Set] of sustained notes *)

Definition slot_is (note : Z) (e : option Z) : bool :=
  bool_decide (e = Some note).

(** [sustainedNotes.has(note)] *)
Definition set_has (note : Z) (s : list (option Z)) : bool :=
  existsb (slot_is note) s.

(** [sustainedNotes.add(note)] *)
Definition set_add (note : Z) (s : list (option Z)) : list (option Z) :=
  if set_has note s then s else s ++ [Some note].

(** [sustainedNotes.delete(note)] *)
Definition set_delete (note : Z) (s : list (option Z)) : list (option Z) :=
  (fun e => if slot_is note e then None else e) <$> s.

(** *** Audio nodes *)

(** [oscillator.stop()] *)
Definition stop_oscillator (v : Voice) : Voice :=
  {| oscillator :=
       {| osc_detune := osc_detune (oscillator v);
          osc_frequency := osc_frequency (oscillator v);
          osc_type := osc_type (oscillator v);
          osc_stopped := true;
          osc_connected := osc_connected (oscillator v) |};
     gain := gain v; stop_note := stop_note v |}.

(** [oscillator.detune.setValueAtTime(d, audioCtx.currentTime)]: the
    parameter takes the value [d] from now on. *)
Definition detune_oscillator (d : float) (v : Voice) : Voice :=
  {| oscillator :=
       {| osc_detune := d;
          osc_frequency := osc_frequency (oscillator v);
          osc_type := osc_type (oscillator v);
          osc_stopped := osc_stopped (oscillator v);
          osc_connected := osc_connected (oscillator v) |};
     gain := gain v; stop_note := stop_note v |}.

(** [oscillator.disconnect(); gain.disconnect();] *)
Definition disconnect_nodes (v : Voice) : Voice :=
  {| oscillator :=
       {| osc_detune := osc_detune (oscillator v);
          osc_frequency := osc_frequency (oscillator v);
          osc_type := osc_type (oscillator v);
          osc_stopped := osc_stopped (oscillator v);
          osc_connected := false |};
     gain := {| gain_gain := gain_gain (gain v); gain_connected := false |};
     stop_note := stop_note v |}.

(** A voice sounds from its creation until its oscillator is stopped. *)
Definition sounding (v : Voice) : bool := negb (osc_stopped (oscillator v)).

(** The references of the sounding voices that were created for [note]. *)
Definition live_voices (note : Z) (o : BaseOscillator) : list nat :=
  filter (fun r => match voices o !! r with
                   | Some v => sounding v && bool_decide (stop_note v = note)
                   | None => false
                   end = true)
         (seq 0 (length (voices o))).

(** *** Methods *)

(** The [stop] closure of the entry [r]:
    [oscillator.stop(); this.activeNotes.delete(note);
     this.sustainedNotes.delete(note);] *)
Definition entry_stop (r : nat) (o : BaseOscillator) : BaseOscillator :=
  match voices o !! r with
  | None => o
  | Some v =>
    let o := set_voices (<[r := stop_oscillator v]> (voices o)) o in
    let o := set_activeNotes (delete (stop_note v) (activeNotes o)) o in
    set_sustainedNotes (set_delete (stop_note v) (sustainedNotes o)) o
  end.

(** [this.activeNotes.get(note)?.stop()] *)
Definition get_stop (note : Z) (o : BaseOscillator) : BaseOscillator :=
  match activeNotes o !! note with
  | Some r => entry_stop r o
  | None => o
  end.

(** The [onended] handler that [start] gives the oscillator of voice [r]. *)
Definition onended (r : nat) (o : BaseOscillator) : BaseOscillator :=
  set_voices (alter disconnect_nodes r (voices o)) o.

(** [stop(note)]: stops an oscillator unless sustain is active. *)
Definition stop (note : Z) (o : BaseOscillator) : BaseOscillator :=
  if sustainActive o then
    if bool_decide (is_Some (activeNotes o !! note))
       && negb (set_has note (sustainedNotes o))
    then set_sustainedNotes (set_add note (sustainedNotes o)) o
    else o
  else get_stop note o.

(** [for (const note of this.sustainedNotes) this.stop(note)]: the iterator
    is at entry [index] of the list as it is now; an empty slot is skipped.
    [fuel] bounds the number of steps, and [None] means it ran out. *)
Fixpoint stop_sustained (fuel index : nat) (o : BaseOscillator)
  : option BaseOscillator :=
  match fuel with
  | O => None
  | S fuel' =>
    match sustainedNotes o !! index with
    | None => Some o
    | Some None => stop_sustained fuel' (S index) o
    | Some (Some note) => stop_sustained fuel' (S index) (stop note o)
    end
  end.

Definition __onSustainOn (o : BaseOscillator) : BaseOscillator :=
  set_sustainActive true o.

Definition __onSustainOff (o : BaseOscillator) : option BaseOscillator :=
  let o := set_sustainActive false o in
  stop_sustained (S (length (sustainedNotes o))) 0 o.

Definition __onNoteOff (note : Z) (o : BaseOscillator) : BaseOscillator :=
  stop note (set_isNoteOn false o).

(** The loop over [this.activeNotes.values()] of the two detune handlers.
    Every entry gets the same detune, so the order of the entries, which a
    [gmap] does not keep, makes no difference. *)
Definition detune_active (o : BaseOscillator) : BaseOscillator :=
  set_voices
    (foldr (fun e vs => alter (detune_oscillator (detune o)) e.2 vs)
           (voices o) (map_to_list (activeNotes o)))
    o.

(** [__onDetune(event)]: [fader] is [event.currentTarget.valueAsNumber] when
    the target is a [Fader], and [None] when it is not. *)
Definition __onDetune (fader : option float) (o : BaseOscillator)
  : BaseOscillator :=
  match fader with
  | None => o
  | Some valueAsNumber =>
    detune_active
      (set_detune (valueAsNumber * detuneAmount o * 100)%float o)
  end.

(** [__onDetuneAmount(event)], with [input] as [fader] above for an
    [HTMLInputElement]. *)
Definition __onDetuneAmount (input : option float) (o : BaseOscillator)
  : BaseOscillator :=
  match input with
  | None => o
  | Some valueAsNumber => set_detuneAmount valueAsNumber o
  end.

(** [__onDetuneStop(event)]; [is_fader] is the [instanceof Fader] test.  The
    handler also resets the fader element, which is no part of this state. *)
Definition __onDetuneStop (is_fader : bool) (o : BaseOscillator)
  : BaseOscillator :=
  if negb is_fader then o
  else if stickyPitchBend o then o
  else detune_active (set_detune 0%float o).

(** *** The waveform handler *)

Definition set_waveform (w : Waveform) (o : BaseOscillator) :=
  {| activeNotes := activeNotes o; detune := detune o;
     detuneAmount := detuneAmount o; stickyPitchBend := stickyPitchBend o;
     sustainActive := sustainActive o; sustainedNotes := sustainedNotes o;
     waveform := w; isNoteOn := isNoteOn o; voices := voices o |}.

(** The key of a waveform in [BaseOscillator.waveforms]. *)
Definition waveform_key (w : Waveform) : string :=
  match w with
  | sawtooth => "sawtooth"
  | sine => "sine"
  | square => "square"
  | triangle => "triangle"
  end.

(** [Object.keys(BaseOscillator.waveforms)] *)
Definition waveform_keys : list string :=
  waveform_key <$> [sawtooth; sine; square; triangle].

(** The waveform a string is the key of. *)
Definition waveform_of_key (value : string) : option Waveform :=
  List.find (fun w => String.eqb value (waveform_key w))
            [sawtooth; sine; square; triangle].

(** [id.split('-')[0]]: the id up to its first ['-']. *)
Fixpoint before_dash (id : string) : string :=
  match id with
  | EmptyString => EmptyString
  | String c rest =>
    if Ascii.eqb c "-"%char then EmptyString else String c (before_dash rest)
  end.

(** [__onWaveform(event)]; [target_id] is [event.target.id] when the target
    is an [HTMLInputElement], and [None] when it is not. *)
Definition __onWaveform (target_id : option string) (o : BaseOscillator)
  : BaseOscillator :=
  match target_id with
  | None => o
  | Some id =>
    let value := before_dash id in
    if negb (existsb (String.eqb value) waveform_keys) then o
    else
      match waveform_of_key value with
      | Some w => set_waveform w o
      | None => o
      end
  end.

(** *** The sticky pitch bend toggle *)

Definition set_stickyPitchBend (b : bool) (o : BaseOscillator) :=
  {| activeNotes := activeNotes o; detune := detune o;
     detuneAmount := detuneAmount o; stickyPitchBend := b;
     sustainActive := sustainActive o; sustainedNotes := sustainedNotes o;
     waveform := waveform o; isNoteOn := isNoteOn o; voices := voices o |}.

(** [__onStickyToggle(event)]; [checked] is [event.currentTarget.checked]
    when the target is an [HTMLInputElement], and [None] when it is not.
    After the assignment the handler dispatches a [mouseup] event on the
    element with id [detune].  The page that holds that element is no part
    of these sources, so what the dispatch reaches is an argument:
    [mouseup] is [None] when there is no such element or none of this
    oscillator's listeners on it, and [Some is_fader] when the dispatch runs
    [__onDetuneStop], the handler of the fader's mouse events, with
    [is_fader] its [instanceof Fader] test.  [dispatchEvent] runs the
    listener before it returns, and the dispatch is the last statement of
    the handler: whatever else listens there runs as the next event does. *)
Definition __onStickyToggle (checked : option bool) (mouseup : option bool)
  (o : BaseOscillator) : BaseOscillator :=
  match checked with
  | None => o
  | Some b =>
    let o := set_stickyPitchBend b o in
    match mouseup with
    | None => o
    | Some is_fader => __onDetuneStop is_fader o
    end
  end.

Section Exponentiation.

(** The operator [**].  ECMAScript leaves its result an
    implementation-approximated value, so it is a parameter here. *)
Variable pow : float -> float -> float.

Definition noteToFrequency (note : Z) : float :=
  (pow 2 ((Z_to_float note - 69) / 12) * 440)%float.

(** The voice [start] creates. *)
Definition new_voice (note : Z) (velocity : option float)
  (o : BaseOscillator) : Voice :=
  {| oscillator :=
       {| osc_detune := detune o;
          osc_frequency := noteToFrequency note;
          osc_type := waveform o;
          osc_stopped := false;
          osc_connected := true |};
     gain := {| gain_gain := default 0.2%float velocity;
                gain_connected := true |};
     stop_note := note |}.

(** [start(note, velocity = 0.2)]: creates an audio graph for each note
    pressed.  [velocity] is [None] when the caller passes [undefined]. *)
Definition start (note : Z) (velocity : option float) (o : BaseOscillator)
  : BaseOscillator :=
  let o :=
    if bool_decide (is_Some (activeNotes o !! note))
    then get_stop note o
    else o in
  let new_oscillator :=
    {| osc_detune := detune o;
       osc_frequency := noteToFrequency note;
       osc_type := waveform o;
       osc_stopped := false;
       osc_connected := true |} in
  let new_gain :=
    {| gain_gain := default 0.2%float velocity; gain_connected := true |} in
  let r := length (voices o) in
  let o :=
    set_voices
      (voices o
       ++ [ {| oscillator := new_oscillator; gain := new_gain;
               stop_note := note |} ])
      o in
  set_activeNotes (<[note := r]> (activeNotes o)) o.

Definition __onNoteOn (note : Z) (velocity : option float)
  (o : BaseOscillator) : BaseOscillator :=
  start note velocity (set_isNoteOn true o).

(** The events an oscillator reacts to, one for each of its handlers.
    [Ended r] is the audio engine reporting that the oscillator of voice [r]
    has ended. *)
Inductive Event : Type :=
| NoteOn (note : Z) (velocity : option float)
| NoteOff (note : Z)
| SustainOn
| SustainOff
| DetuneInput (fader : option float)
| DetuneAmountInput (input : option float)
| DetuneStop (is_fader : bool)
| Ended (r : nat)
| WaveformInput (target_id : option string)
| StickyToggle (checked : option bool) (mouseup : option bool).

(** The engine fires [ended] only on an oscillator that was stopped. *)
Definition dispatch_ended (r : nat) (o : BaseOscillator) : BaseOscillator :=
  match voices o !! r with
  | Some v => if osc_stopped (oscillator v) then onended r o else o
  | None => o
  end.

Definition handle (e : Event) (o : BaseOscillator) : option BaseOscillator :=
  match e with
  | NoteOn note velocity => Some (__onNoteOn note velocity o)
  | NoteOff note => Some (__onNoteOff note o)
  | SustainOn => Some (__onSustainOn o)
  | SustainOff => __onSustainOff o
  | DetuneInput fader => Some (__onDetune fader o)
  | DetuneAmountInput input => Some (__onDetuneAmount input o)
  | DetuneStop is_fader => Some (__onDetuneStop is_fader o)
  | Ended r => Some (dispatch_ended r o)
  | WaveformInput target_id => Some (__onWaveform target_id o)
  | StickyToggle checked mouseup => Some (__onStickyToggle checked mouseup o)
  end.

(** Events are handled one after the other, each to completion. *)
Fixpoint run (es : list Event) (o : BaseOscillator) : option BaseOscillator :=
  match es with
  | [] => Some o
  | e :: es' =>
    match handle e o with
    | Some o' => run es' o'
    | None => None
    end
  end.

End Exponentiation.

(** ** Specification vocabulary *)

(** Updates of audio nodes that neither stop nor restart an oscillator, and
    keep the note of its closure. *)
Definition keeps_voice (f : Voice -> Voice) : Prop :=
  forall v, stop_note (f v) = stop_note v /\ sounding (f v) = sounding v.

(** What the methods keep true of an oscillator: every entry of
    [activeNotes] refers to a sounding voice created for its key, every
    sounding voice is the entry of its note, and every sustained note has an
    entry. *)
Definition consistent (o : BaseOscillator) : Prop :=
  (forall note r, activeNotes o !! note = Some r ->
     exists v, voices o !! r = Some v /\ stop_note v = note
               /\ sounding v = true)
  /\ (forall r v, voices o !! r = Some v -> sounding v = true ->
        activeNotes o !! stop_note v = Some r)
  /\ (forall note, set_has note (sustainedNotes o) = true ->
        is_Some (activeNotes o !! note)).

(** How a run of the loop that stops the notes [pending] changes an
    oscillator: their entries are removed, their voices are stopped, and
    everything else is as before. *)
Definition flushed (pending : Z -> bool) (o o' : BaseOscillator) : Prop :=
  consistent o' /\ sustainActive o' = false
  /\ detune o' = detune o /\ detuneAmount o' = detuneAmount o
  /\ stickyPitchBend o' = stickyPitchBend o /\ waveform o' = waveform o
  /\ isNoteOn o' = isNoteOn o
  /\ length (sustainedNotes o') = length (sustainedNotes o)
  /\ (forall n, activeNotes o' !! n
                = if pending n then None else activeNotes o !! n)
  /\ (forall r, voices o' !! r
                = (fun v => if pending (stop_note v)
                            then stop_oscillator v else v) <$> voices o !! r).

(** Closes a conjunction of equations between closed terms by evaluation. *)
Ltac evaluate :=
  repeat (split; [vm_compute; reflexivity |]); vm_compute; reflexivity.

(** An exponentiation to run the model on concrete events with.  It is
    right where ECMAScript fixes the result of [**] exactly (1 for a zero
    exponent, NaN for a NaN exponent) and answers NaN elsewhere; the runs
    below do not depend on the frequency of a voice. *)
Definition pow_sample (base exponent : float) : float :=
  if PrimFloat.eqb exponent 0 then 1%float else nan.

(** Side conditions on status bytes: constants unfolded, then arithmetic. *)
Ltac status_arith :=
  first
    [ reflexivity
    | cbv beta iota delta
        [MIDICommand.NOTE_ON MIDICommand.NOTE_OFF MIDICommand.PITCH_WHEEL
         MIDICommand.CONTROL_CHANGE];
      lia ].

(** ** Further vocabulary for the decoder *)

Definition is_sustainOn (e : option MIDIEvent) : bool :=
  match e with
  | Some (sustainOn _) => true
  | _ => false
  end.

(** A data byte as MIDI sends it: seven bits. *)
Definition seven_bit (b : byte) : bool := byte_to_Z b <=? 127.

(** ** From MIDI messages to the oscillator *)

(** [__onNoteOff(event)] on the detail of a decoded event, whose note may be
    undefined: [undefined] is no key of [activeNotes], so [has] and [get]
    find nothing and [stop] does nothing. *)
Definition __onNoteOff_detail (note : option Z) (o : BaseOscillator)
  : BaseOscillator :=
  match note with
  | Some n => __onNoteOff n o
  | None => set_isNoteOn false o
  end.

(** The listeners the constructor adds to the document, by event type:
    [noteOff], [sustainOn] and [sustainOff].  [None] is an event type the
    constructor adds no listener for. *)
Definition constructor_listener (e : MIDIEvent)
  : option (BaseOscillator -> option BaseOscillator) :=
  match e with
  | noteOff _ note => Some (fun o => Some (__onNoteOff_detail note o))
  | sustainOn _ => Some (fun o => Some (__onSustainOn o))
  | sustainOff _ => Some __onSustainOff
  | noteOn _ _ _ | pitchWheel _ | modWheel _ => None
  end.

(** [onMIDIMessage] followed by the constructor's listener: the decoded
    event, if there is one, bubbles from the MIDI input element to the
    document.  The result is [None] when no listener of the constructor
    runs. *)
Definition onMIDIMessage (data : list byte)
  : option (BaseOscillator -> option BaseOscillator) :=
  match getEventForData data with
  | Some e => constructor_listener e
  | None => None
  end.

(** ** The oscillator module *)

(** An instance as the module has it.  The module assigns the id of a
    checkbox to the [waveform] of an instance, so the field holds a string
    here; the other fields are those of [BaseOscillator]. *)
Record OscillatorInstance : Type := {
  instance_activeNotes : gmap Z nat;
  instance_detune : float;
  instance_detuneAmount : float;
  instance_stickyPitchBend : bool;
  instance_sustainActive : bool;
  instance_sustainedNotes : list (option Z);
  instance_waveform : string;
  instance_isNoteOn : bool;
  instance_voices : list Voice
}.

(** [const osc = new BaseOscillator(); osc.waveform = id;] *)
Definition new_instance (id : string) : OscillatorInstance :=
  {| instance_activeNotes := activeNotes new_BaseOscillator;
     instance_detune := detune new_BaseOscillator;
     instance_detuneAmount := detuneAmount new_BaseOscillator;
     instance_stickyPitchBend := stickyPitchBend new_BaseOscillator;
     instance_sustainActive := sustainActive new_BaseOscillator;
     instance_sustainedNotes := sustainedNotes new_BaseOscillator;
     instance_waveform := id;
     instance_isNoteOn := isNoteOn new_BaseOscillator;
     instance_voices := voices new_BaseOscillator |}.

(** An instance whose [waveform] is one of the four keys, as an oscillator
    of the sections above. *)
Definition instance_oscillator (i : OscillatorInstance)
  : option BaseOscillator :=
  match waveform_of_key (instance_waveform i) with
  | Some w =>
    Some {| activeNotes := instance_activeNotes i;
            detune := instance_detune i;
            detuneAmount := instance_detuneAmount i;
            stickyPitchBend := instance_stickyPitchBend i;
            sustainActive := instance_sustainActive i;
            sustainedNotes := instance_sustainedNotes i;
            waveform := w;
            isNoteOn := instance_isNoteOn i;
            voices := instance_voices i |}
  | None => None
  end.

(** An element of [oscillators]: the field starts as [[BaseOscillator]], the
    class itself, and [enableOscillator] pushes instances. *)
Inductive OscillatorsEntry : Type :=
| BaseOscillator_class
| BaseOscillator_instance (osc : OscillatorInstance).

(** [osc.waveform]: the class has [waveforms] but no [waveform], so it
    reads [undefined] ([None]) there. *)
Definition entry_waveform (osc : OscillatorsEntry) : option string :=
  match osc with
  | BaseOscillator_class => None
  | BaseOscillator_instance i => Some (instance_waveform i)
  end.

(** [oscillators = [BaseOscillator]] *)
Definition new_oscillators : list OscillatorsEntry := [BaseOscillator_class].

(** [enableOscillator(event)] on the field [oscillators]; [checked] and [id]
    are [event.target.checked] and [event.target.id]. *)
Definition enableOscillator (checked : bool) (id : string)
  (oscillators : list OscillatorsEntry) : list OscillatorsEntry :=
  if checked then
    oscillators ++ [BaseOscillator_instance (new_instance id)]
  else
    filter (fun osc => entry_waveform osc <> Some id) oscillators.

Section OscillatorModule.

(** [osc.__onNoteOn(event)] on an instance: the instance afterwards, and
    whether the call returned ([false]: it threw).  The loop below is
    stated for any such call. *)
Variable instance__onNoteOn : OscillatorInstance -> OscillatorInstance * bool.

(** The loop of [getOscNodes(event)] over [oscillators]: the entries
    afterwards, and the number of elements pushed to [oscNodes] ([__onNoteOn]
    returns [undefined], so the elements are all [undefined]), or [None]
    when the loop threw.  The class has no [__onNoteOn], which is a method
    of instances: calling it is a [TypeError]. *)
Fixpoint getOscNodes (oscillators : list OscillatorsEntry) (pushed : nat)
  : list OscillatorsEntry * option nat :=
  match oscillators with
  | [] => ([], Some pushed)
  | BaseOscillator_class :: rest => (BaseOscillator_class :: rest, None)
  | BaseOscillator_instance i :: rest =>
    let (i', returned) := instance__onNoteOn i in
    if returned then
      let (rest', result) := getOscNodes rest (S pushed) in
      (BaseOscillator_instance i' :: rest', result)
    else (BaseOscillator_instance i' :: rest, None)
  end.

End OscillatorModule.

(** The module's reactions to its checkboxes, one after the other. *)
Fixpoint toggle (changes : list (bool * string))
  (oscillators : list OscillatorsEntry) : list OscillatorsEntry :=
  match changes with
  | [] => oscillators
  | (checked, id) :: changes' =>
    toggle changes' (enableOscillator checked id oscillators)
  end.

(** ** Further vocabulary for the oscillator *)

(** What can become of a voice: its note, frequency, type and gain stay, a
    stopped oscillator stays stopped, and a disconnected node stays
    disconnected. *)
Definition evolves (v v' : Voice) : Prop :=
  stop_note v' = stop_note v
  /\ osc_frequency (oscillator v') = osc_frequency (oscillator v)
  /\ osc_type (oscillator v') = osc_type (oscillator v)
  /\ gain_gain (gain v') = gain_gain (gain v)
  /\ (osc_stopped (oscillator v) = true ->
      osc_stopped (oscillator v') = true)
  /\ (osc_connected (oscillator v) = false ->
      osc_connected (oscillator v') = false)
  /\ (gain_connected (gain v) = false -> gain_connected (gain v') = false).

(** What one event does to a voice that exists: nothing, or it stops its
    oscillator, or sets its detune, or, once the oscillator is stopped,
    disconnects its nodes. *)
Inductive voice_step (v : Voice) : Voice -> Prop :=
| voice_kept : voice_step v v
| voice_stopped : voice_step v (stop_oscillator v)
| voice_detuned (d : float) : voice_step v (detune_oscillator d v)
| voice_released :
    osc_stopped (oscillator v) = true -> voice_step v (disconnect_nodes v).

(** A voice whose oscillator has not been stopped is connected. *)
Definition connected_while_sounding (v : Voice) : Prop :=
  sounding v = true ->
  osc_connected (oscillator v) = true /\ gain_connected (gain v) = true.

(** The frequency of a voice is that of its note, and a sounding voice is
    connected. *)
Definition voice_sane (pow : float -> float -> float) (v : Voice) : Prop :=
  osc_frequency (oscillator v) = noteToFrequency pow (stop_note v)
  /\ connected_while_sounding v.

(** While the pedal is up, no note is sustained. *)
Definition pedal_up_clear (o : BaseOscillator) : Prop :=
  sustainActive o = false -> forall n, set_has n (sustainedNotes o) = false.

(** Every entry of [activeNotes] has the detune of the oscillator object. *)
Definition tuned (o : BaseOscillator) : Prop :=
  forall note r v,
    activeNotes o !! note = Some r -> voices o !! r = Some v ->
    osc_detune (oscillator v) = detune o.


(** The number of [noteOn] events among the events of a run. *)
Fixpoint notes_started (es : list Event) : nat :=
  match es with
  | [] => 0
  | NoteOn _ _ :: es' => S (notes_started es')
  | _ :: es' => notes_started es'
  end.

(** * Properties of the decoder *)

Lemma byte_to_Z_range (b : byte) : 0 <= byte_to_Z b < 256.
Proof.
  unfold byte_to_Z. pose proof (Byte.to_N_bounded b). lia.
Qed.

Lemma all_bytes_complete (b : byte) : b ∈ all_bytes.
Proof.
  unfold all_bytes. apply list_elem_of_omap.
  exists (Byte.to_N b). split; [| apply Byte.of_to_N].
  apply list_elem_of_fmap. exists (N.to_nat (Byte.to_N b)).
  split; [lia |]. apply elem_of_seq.
  pose proof (Byte.to_N_bounded b). lia.
Qed.

(** A property checked on every byte holds of every byte. *)
Lemma forall_bytes (P : byte -> bool) :
  forallb P all_bytes = true -> forall b, P b = true.
Proof.
  intros Hall b. rewrite forallb_forall in Hall.
  apply Hall, list_elem_of_In, all_bytes_complete.
Qed.

Lemma forall_bytes2 (P : byte -> byte -> bool) :
  forallb (fun b1 => forallb (P b1) all_bytes) all_bytes = true ->
  forall b1 b2, P b1 b2 = true.
Proof.
  intros Hall b1 b2.
  apply (forall_bytes (P b1)).
  apply (forall_bytes (fun b => forallb (P b) all_bytes) Hall b1).
Qed.

(** A byte divided by 255 is truthy exactly when the byte is not zero. *)
Lemma truthy_velocity (value : byte) :
  truthy (Z_to_float (byte_to_Z value) / 0xff)%float
  = negb (Byte.eqb value x00).
Proof.
  pose (P := fun b : byte =>
    Bool.eqb (truthy (Z_to_float (byte_to_Z b) / 0xff)%float)
             (negb (Byte.eqb b x00))).
  apply Bool.eqb_prop. change (P value = true).
  apply forall_bytes. vm_compute. reflexivity.
Qed.

(** The command of a status byte is [c] exactly on the sixteen status bytes
    from [c] on, for a command [c] that is a multiple of 16. *)
Lemma command_eq (data0 c : Z) :
  0 <= data0 -> c mod 16 = 0 ->
  (data0 - Z.rem data0 NUM_MIDI_CHANNELS =? c) = true <-> c <= data0 <= c + 15.
Proof.
  intros Hpos Hc. unfold NUM_MIDI_CHANNELS.
  rewrite Z.rem_mod_nonneg by lia. rewrite Z.eqb_eq.
  pose proof (Z.mod_pos_bound data0 16 ltac:(lia)).
  pose proof (Z.div_mod data0 16 ltac:(lia)).
  pose proof (Z.div_mod c 16 ltac:(lia)).
  split; intros H'; [lia |].
  assert (data0 / 16 = c / 16); [| lia].
  assert (c / 16 <= data0 / 16) by (apply Z.div_le_mono; lia).
  assert (data0 / 16 <= (c + 15) / 16) by (apply Z.div_le_mono; lia).
  assert ((c + 15) / 16 = c / 16); [| lia].
  replace (c + 15) with (15 + (c / 16) * 16) by lia.
  rewrite Z.div_add by lia. reflexivity.
Qed.

(** Unfolds the decoder on a three-byte message whose status byte is in the
    supported range. *)
Lemma getEventForData_supported (status data1 data2 : byte) :
  0x80 <= byte_to_Z status < 0xF0 ->
  getEventForData [status; data1; data2]
  = let data0 := byte_to_Z status in
    let channel := Z.rem data0 NUM_MIDI_CHANNELS in
    let command := data0 - channel in
    if (command =? MIDICommand.NOTE_ON) || (command =? MIDICommand.NOTE_OFF)
    then
      let velocity := (Z_to_float (byte_to_Z data2) / 0xff)%float in
      if (command =? MIDICommand.NOTE_ON) && truthy velocity
      then Some (noteOn channel (Some (byte_to_Z data1)) velocity)
      else Some (noteOff channel (Some (byte_to_Z data1)))
    else if command =? MIDICommand.PITCH_WHEEL
    then
      Some (pitchWheel
              ((Z_to_float (byte_to_Z data1)
                + Z_to_float (shl32 (byte_to_Z data2) 8)) / 0xffff)%float)
    else if command =? MIDICommand.CONTROL_CHANGE
    then
      if bool_decide (Some (byte_to_Z data1) = Some MIDIControlChange.MODWHEEL)
      then Some (modWheel (Z_to_float (byte_to_Z data2) / 0xff)%float)
      else if bool_decide
                (Some (byte_to_Z data1) = Some MIDIControlChange.SUSTAIN)
      then
        if truthy (Z_to_float (byte_to_Z data2))
        then Some (sustainOn channel)
        else Some (sustainOff channel)
      else None
    else None.
Proof.
  intros Hrange. unfold getEventForData, element. simpl.
  unfold MIDICommand.NOTE_OFF, MIDICommand.PITCH_WHEEL, NUM_MIDI_CHANNELS at 1.
  destruct (Z.ltb_spec (byte_to_Z status) 128) as [Hlt | _]; [lia |].
  destruct (Z.geb_spec (byte_to_Z status) (224 + 16)) as [Hge | _]; [lia |].
  reflexivity.
Qed.

Lemma eqb_command (data0 c : Z) (b : bool) :
  0 <= data0 -> c mod 16 = 0 ->
  (if b then c <= data0 <= c + 15 else ~ c <= data0 <= c + 15) ->
  (data0 - Z.rem data0 NUM_MIDI_CHANNELS =? c) = b.
Proof.
  intros Hpos Hc Hb. pose proof (command_eq data0 c Hpos Hc) as Heq.
  destruct b.
  - apply Heq, Hb.
  - apply not_true_is_false. intros Htrue. apply Hb, Heq, Htrue.
Qed.

Lemma channel_of_status (data0 c : Z) :
  0 <= data0 -> c mod 16 = 0 -> c <= data0 <= c + 15 ->
  Z.rem data0 NUM_MIDI_CHANNELS = data0 - c.
Proof.
  intros Hpos Hc Hr.
  pose proof (proj2 (command_eq data0 c Hpos Hc) Hr) as Heq.
  apply Z.eqb_eq in Heq. lia.
Qed.

(** Shifting the second data byte left by eight bits multiplies it by 256. *)
Lemma shl8_float (msb : byte) :
  Z_to_float (shl32 (byte_to_Z msb) 8)
  = (Z_to_float (byte_to_Z msb) * 256)%float.
Proof. destruct msb; vm_compute; reflexivity. Qed.

Lemma pitch_value_range (lsb msb : byte) :
  PrimFloat.leb 0 (pitch_value lsb msb) && PrimFloat.leb (pitch_value lsb msb) 1
  = true.
Proof.
  apply (forall_bytes2
           (fun b1 b2 => PrimFloat.leb 0 (pitch_value b1 b2)
                         && PrimFloat.leb (pitch_value b1 b2) 1)).
  vm_compute. reflexivity.
Qed.

(** The sum of the two data bytes is exact: it is the float of the 16-bit
    integer they spell. *)
Lemma pitch_value_exact (lsb msb : byte) :
  PrimFloat.eqb (pitch_value lsb msb)
    (Z_to_float (byte_to_Z lsb + byte_to_Z msb * 256) / 65535) = true.
Proof.
  apply (forall_bytes2
           (fun b1 b2 =>
              PrimFloat.eqb (pitch_value b1 b2)
                (Z_to_float (byte_to_Z b1 + byte_to_Z b2 * 256) / 65535))).
  vm_compute. reflexivity.
Qed.

(** C5: a Note-On message with velocity byte 0 decodes to the [noteOff] event
    of its channel and note, the event a Note-Off message of that channel and
    note decodes to; a three-byte message decodes to [noteOn] exactly when
    its command is Note-On and its velocity byte, and so the velocity
    [value / 255], is not zero.  [0x90, 60, 0] and [0x80, 60, 0] both give
    [noteOff] of note 60. *)
Theorem note_on_velocity_zero_is_note_off :
  (forall status note : byte,
      0x90 <= byte_to_Z status <= 0x9F ->
      getEventForData [status; note; x00]
      = Some (noteOff (byte_to_Z status - 0x90) (Some (byte_to_Z note))))
  /\ (forall status note value : byte,
      0x80 <= byte_to_Z status <= 0x8F ->
      getEventForData [status; note; value]
      = Some (noteOff (byte_to_Z status - 0x80) (Some (byte_to_Z note))))
  /\ (forall status_on status_off note value : byte,
      0x90 <= byte_to_Z status_on <= 0x9F ->
      byte_to_Z status_off = byte_to_Z status_on - 0x10 ->
      getEventForData [status_on; note; x00]
      = getEventForData [status_off; note; value])
  /\ (forall status note value : byte,
      is_noteOn (getEventForData [status; note; value]) = true
      <-> 0x90 <= byte_to_Z status <= 0x9F
          /\ value <> x00
          /\ truthy (Z_to_float (byte_to_Z value) / 0xff)%float = true)
  /\ (forall status note value : byte,
      0x90 <= byte_to_Z status <= 0x9F -> value <> x00 ->
      getEventForData [status; note; value]
      = Some (noteOn (byte_to_Z status - 0x90) (Some (byte_to_Z note))
                     (Z_to_float (byte_to_Z value) / 0xff)%float))
  /\ getEventForData [x90; x3c; x00] = Some (noteOff 0 (Some 60))
  /\ getEventForData [x80; x3c; x00] = Some (noteOff 0 (Some 60)).
Proof.
  assert (Hzero : forall value : byte,
             value <> x00 <-> negb (Byte.eqb value x00) = true).
  { intros value. rewrite negb_true_iff.
    destruct (Byte.eqb value x00) eqn:E.
    - apply Byte.byte_dec_bl in E. split; [contradiction | discriminate].
    - split; [reflexivity |]. intros _ ->. discriminate. }
  assert (Hon : forall status note : byte,
             0x90 <= byte_to_Z status <= 0x9F ->
             getEventForData [status; note; x00]
             = Some (noteOff (byte_to_Z status - 0x90)
                             (Some (byte_to_Z note)))).
  { intros status note Hs.
    rewrite getEventForData_supported by lia. cbv zeta.
    pose proof (byte_to_Z_range status).
    rewrite (eqb_command _ MIDICommand.NOTE_ON true) by status_arith.
    rewrite truthy_velocity. simpl.
    rewrite (channel_of_status _ 0x90) by status_arith.
    reflexivity. }
  assert (Hoff : forall status note value : byte,
             0x80 <= byte_to_Z status <= 0x8F ->
             getEventForData [status; note; value]
             = Some (noteOff (byte_to_Z status - 0x80)
                             (Some (byte_to_Z note)))).
  { intros status note value Hs.
    rewrite getEventForData_supported by lia. cbv zeta.
    pose proof (byte_to_Z_range status).
    rewrite (eqb_command _ MIDICommand.NOTE_ON false) by status_arith.
    rewrite (eqb_command _ MIDICommand.NOTE_OFF true) by status_arith.
    simpl.
    rewrite (channel_of_status _ 0x80) by status_arith.
    reflexivity. }
  split; [exact Hon |]. split; [exact Hoff |].
  split; [| split; [| split; [| split]]].
  - intros status_on status_off note value Hs Hsame.
    rewrite Hon by exact Hs. rewrite Hoff by lia.
    do 2 f_equal. lia.
  - intros status note value.
    pose proof (byte_to_Z_range status) as Hb.
    rewrite truthy_velocity, Hzero.
    destruct (Z_lt_dec (byte_to_Z status) 0x80) as [Hlow | Hlow].
    { unfold getEventForData, element. simpl.
      unfold MIDICommand.NOTE_OFF.
      destruct (Z.ltb_spec (byte_to_Z status) 128); [| lia].
      simpl. split; [discriminate | lia]. }
    destruct (Z_lt_dec (byte_to_Z status) 0xF0) as [Hhigh | Hhigh].
    2: { unfold getEventForData, element. simpl.
         unfold MIDICommand.PITCH_WHEEL, NUM_MIDI_CHANNELS at 1.
         destruct (Z.geb_spec (byte_to_Z status) (224 + 16)); [| lia].
         rewrite orb_true_r. simpl. split; [discriminate | lia]. }
    rewrite getEventForData_supported by lia. cbv zeta.
    rewrite truthy_velocity.
    destruct (Z_le_dec 0x90 (byte_to_Z status)) as [H90 | H90];
      [destruct (Z_le_dec (byte_to_Z status) 0x9F) as [H9F | H9F] |].
    + rewrite (eqb_command _ MIDICommand.NOTE_ON true)
        by status_arith.
      simpl. destruct (negb (Byte.eqb value x00)); simpl;
        intuition (try discriminate; try lia).
    + rewrite (eqb_command _ MIDICommand.NOTE_ON false)
        by status_arith.
      simpl.
      repeat match goal with
             | |- context [if ?c then _ else _] => destruct c
             end; simpl; split; try discriminate; lia.
    + rewrite (eqb_command _ MIDICommand.NOTE_ON false)
        by status_arith.
      simpl.
      repeat match goal with
             | |- context [if ?c then _ else _] => destruct c
             end; simpl; split; try discriminate; lia.
  - intros status note value Hs Hv.
    rewrite getEventForData_supported by lia. cbv zeta.
    pose proof (byte_to_Z_range status).
    rewrite (eqb_command _ MIDICommand.NOTE_ON true) by status_arith.
    rewrite truthy_velocity. apply Hzero in Hv. rewrite Hv. simpl.
    rewrite (channel_of_status _ 0x90) by status_arith.
    reflexivity.
  - vm_compute. reflexivity.
  - vm_compute. reflexivity.
Qed.

(** C6: a three-byte message whose status byte is below 0x80, or at or above
    0xF0, decodes to no event. *)
Theorem unsupported_status_dropped (status data1 data2 : byte) :
  byte_to_Z status < 0x80 \/ 0xF0 <= byte_to_Z status ->
  getEventForData [status; data1; data2] = None.
Proof.
  intros Hout. unfold getEventForData, element. simpl.
  unfold MIDICommand.NOTE_OFF, MIDICommand.PITCH_WHEEL, NUM_MIDI_CHANNELS at 1.
  destruct (Z.ltb_spec (byte_to_Z status) 128) as [_ | Hge]; [reflexivity |].
  destruct (Z.geb_spec (byte_to_Z status) (224 + 16)) as [_ | Hlt];
    [reflexivity | lia].
Qed.

(** C7: a message with status byte 0xE0 to 0xEF decodes to [pitchWheel] with
    value [(data[1] + data[2] * 256) / 65535], computed in floats; the sum is
    exact, and the value lies between 0 and 1.  [0xE0, 0x00, 0x40] gives
    [(0 + 0x40 * 256) / 65535]. *)
Theorem pitch_wheel_value :
  (forall status lsb msb : byte,
      0xE0 <= byte_to_Z status <= 0xEF ->
      getEventForData [status; lsb; msb]
      = Some (pitchWheel
                ((Z_to_float (byte_to_Z lsb) + Z_to_float (byte_to_Z msb) * 256)
                 / 65535)%float))
  /\ (forall lsb msb : byte,
      let value :=
        ((Z_to_float (byte_to_Z lsb) + Z_to_float (byte_to_Z msb) * 256)
         / 65535)%float in
      PrimFloat.eqb value
        (Z_to_float (byte_to_Z lsb + byte_to_Z msb * 256) / 65535) = true
      /\ PrimFloat.leb 0 value = true
      /\ PrimFloat.leb value 1 = true)
  /\ getEventForData [xe0; x00; x40]
     = Some (pitchWheel ((0 + 0x40 * 256) / 65535)%float).
Proof.
  split; [| split].
  - intros status lsb msb Hs.
    rewrite getEventForData_supported by lia. cbv zeta.
    pose proof (byte_to_Z_range status).
    rewrite (eqb_command _ MIDICommand.NOTE_ON false) by status_arith.
    rewrite (eqb_command _ MIDICommand.NOTE_OFF false)
      by status_arith.
    rewrite (eqb_command _ MIDICommand.PITCH_WHEEL true)
      by status_arith.
    simpl. rewrite shl8_float. reflexivity.
  - intros lsb msb value.
    pose proof (pitch_value_range lsb msb) as Hr.
    apply andb_true_iff in Hr.
    split; [apply pitch_value_exact | exact Hr].
  - vm_compute. reflexivity.
Qed.

Example decode_note_on :
  getEventForData [x90; x3c; x7f]
  = Some (noteOn 0 (Some 60) (127 / 255)%float).
Proof. vm_compute. reflexivity. Qed.

Example decode_sustain :
  getEventForData [xb0; x40; x00] = Some (sustainOff 0)
  /\ getEventForData [xb0; x40; x7f] = Some (sustainOn 0).
Proof. split; vm_compute; reflexivity. Qed.

(** * Properties of the oscillator *)

(** ** The set of sustained notes *)

Lemma slot_is_true (note : Z) (e : option Z) :
  slot_is note e = true <-> e = Some note.
Proof. unfold slot_is. apply bool_decide_eq_true. Qed.

Lemma set_has_true (note : Z) (s : list (option Z)) :
  set_has note s = true <-> Some note ∈ s.
Proof.
  unfold set_has. rewrite existsb_exists. split.
  - intros (e & Hin & He). apply slot_is_true in He. subst e.
    apply list_elem_of_In, Hin.
  - intros Hin. exists (Some note). split.
    + apply list_elem_of_In, Hin.
    + apply slot_is_true. reflexivity.
Qed.

Lemma set_has_app (note : Z) (s1 s2 : list (option Z)) :
  set_has note (s1 ++ s2) = set_has note s1 || set_has note s2.
Proof. unfold set_has. apply existsb_app. Qed.

Lemma set_has_cons (note : Z) (e : option Z) (s : list (option Z)) :
  set_has note (e :: s) = slot_is note e || set_has note s.
Proof. reflexivity. Qed.

Lemma set_has_add (n note : Z) (s : list (option Z)) :
  set_has n (set_add note s) = bool_decide (n = note) || set_has n s.
Proof.
  unfold set_add. destruct (set_has note s) eqn:Hhas.
  - destruct (bool_decide_reflect (n = note)) as [-> | _]; simpl.
    + exact Hhas.
    + reflexivity.
  - rewrite set_has_app. simpl. unfold slot_is.
    rewrite orb_false_r, orb_comm. f_equal.
    apply bool_decide_ext. split; congruence.
Qed.

Lemma set_has_delete (n note : Z) (s : list (option Z)) :
  set_has n (set_delete note s) = negb (bool_decide (n = note)) && set_has n s.
Proof.
  unfold set_delete. induction s as [| e s IH].
  - simpl. apply eq_sym, andb_false_r.
  - rewrite fmap_cons, !set_has_cons, IH. clear IH.
    unfold slot_is.
    repeat case_bool_decide; simplify_eq; simpl; reflexivity.
Qed.

Lemma length_set_delete (note : Z) (s : list (option Z)) :
  length (set_delete note s) = length s.
Proof. unfold set_delete. apply length_fmap. Qed.

Lemma set_has_empty_slots (s : list (option Z)) :
  (forall n, set_has n s = false) <-> Forall (fun e => e = None) s.
Proof.
  split.
  - intros Hnone. apply Forall_forall. intros [n |] Hin; [| reflexivity].
    specialize (Hnone n). apply not_true_iff_false in Hnone.
    exfalso. apply Hnone, set_has_true, Hin.
  - intros Hall n. apply not_true_iff_false. intros Hhas.
    apply set_has_true in Hhas. rewrite Forall_forall in Hall.
    specialize (Hall _ Hhas). discriminate.
Qed.

(** ** Voices *)

Lemma stop_oscillator_stopped (v : Voice) :
  sounding v = false -> stop_oscillator v = v.
Proof.
  destruct v as [[d f t st c] g n]. unfold sounding, stop_oscillator. simpl.
  intros Hst. apply negb_false_iff in Hst. subst st. reflexivity.
Qed.

Lemma keeps_detune (d : float) : keeps_voice (detune_oscillator d).
Proof. intros v. split; reflexivity. Qed.

Lemma keeps_disconnect : keeps_voice disconnect_nodes.
Proof. intros v. split; reflexivity. Qed.

(** The loop of the detune handlers changes the detune of the voices that
    are entries of the map, and nothing else. *)
Lemma detune_entries_lookup (d : float) (entries : list (Z * nat))
  (vs : list Voice) (r : nat) :
  foldr (fun e vs => alter (detune_oscillator d) e.2 vs) vs entries !! r
  = if bool_decide (r ∈ entries.*2)
    then detune_oscillator d <$> vs !! r
    else vs !! r.
Proof.
  induction entries as [| [n r'] entries IH].
  - reflexivity.
  - rewrite fmap_cons. cbn [foldr snd].
    destruct (decide (r' = r)) as [-> | Hne].
    + rewrite list_lookup_alter_eq, IH.
      rewrite (bool_decide_eq_true_2 (r ∈ r :: entries.*2))
        by apply list_elem_of_here.
      case_bool_decide; [| reflexivity].
      destruct (vs !! r); reflexivity.
    + rewrite list_lookup_alter_ne by exact Hne. rewrite IH.
      apply (f_equal (fun b : bool =>
                        if b then detune_oscillator d <$> vs !! r
                        else vs !! r)).
      apply bool_decide_ext. rewrite elem_of_cons. intuition congruence.
Qed.

Lemma detune_active_entry (o : BaseOscillator) (note : Z) (r : nat) :
  activeNotes o !! note = Some r ->
  voices (detune_active o) !! r
  = detune_oscillator (detune o) <$> voices o !! r.
Proof.
  intros Hnote. unfold detune_active. simpl. rewrite detune_entries_lookup.
  rewrite bool_decide_eq_true_2; [reflexivity |].
  apply list_elem_of_fmap. exists (note, r). split; [reflexivity |].
  apply elem_of_map_to_list, Hnote.
Qed.

Lemma detune_active_other (o : BaseOscillator) (r : nat) :
  (forall note, activeNotes o !! note <> Some r) ->
  voices (detune_active o) !! r = voices o !! r.
Proof.
  intros Hnone. unfold detune_active. simpl. rewrite detune_entries_lookup.
  rewrite bool_decide_eq_false_2; [reflexivity |].
  rewrite list_elem_of_fmap. intros ([note r'] & -> & Hin).
  apply (Hnone note), elem_of_map_to_list, Hin.
Qed.

Lemma detune_active_keeps (o : BaseOscillator) (r : nat) :
  exists f, keeps_voice f /\ voices (detune_active o) !! r = f <$> voices o !! r.
Proof.
  unfold detune_active. simpl. rewrite detune_entries_lookup.
  case_bool_decide.
  - exists (detune_oscillator (detune o)). split; [apply keeps_detune | done].
  - exists id. split; [done |]. by rewrite option_fmap_id.
Qed.

(** ** The bookkeeping invariant *)

Lemma consistent_new : consistent new_BaseOscillator.
Proof.
  unfold new_BaseOscillator.
  split; [| split]; cbn [activeNotes voices sustainedNotes].
  - intros note r Hnote. rewrite lookup_empty in Hnote. discriminate.
  - intros r v Hr. rewrite lookup_nil in Hr. discriminate.
  - intros note Hhas. discriminate.
Qed.

(** Changing audio parameters or connections keeps the invariant. *)
Lemma consistent_set_voices (o : BaseOscillator) (vs : list Voice) :
  consistent o ->
  (forall r, exists f, keeps_voice f /\ vs !! r = f <$> voices o !! r) ->
  consistent (set_voices vs o).
Proof.
  intros (Hact & Hsnd & Hsus) Hvs. split; [| split]; simpl.
  - intros note r Hnote. destruct (Hact _ _ Hnote) as (v & Hv & Hn & Hs).
    destruct (Hvs r) as (f & Hf & Hr). exists (f v).
    rewrite Hr, Hv. destruct (Hf v) as [Hfn Hfs].
    split; [reflexivity |]. split; congruence.
  - intros r v' Hr' Hs'. destruct (Hvs r) as (f & Hf & Hr).
    rewrite Hr in Hr'. destruct (voices o !! r) as [v |] eqn:Hv; [| done].
    simpl in Hr'. injection Hr' as <-. destruct (Hf v) as [Hfn Hfs].
    rewrite Hfn. apply Hsnd; congruence.
  - exact Hsus.
Qed.

Lemma consistent_scalar (o o' : BaseOscillator) :
  activeNotes o' = activeNotes o -> voices o' = voices o ->
  sustainedNotes o' = sustainedNotes o ->
  consistent o -> consistent o'.
Proof.
  unfold consistent. intros -> -> ->. exact id.
Qed.

(** The [stop] closure of the entry of an active note. *)
Lemma entry_stop_active (o : BaseOscillator) (note : Z) (r : nat) :
  consistent o -> activeNotes o !! note = Some r ->
  exists v,
    voices o !! r = Some v /\ stop_note v = note /\ sounding v = true
    /\ entry_stop r o
       = set_sustainedNotes (set_delete note (sustainedNotes o))
           (set_activeNotes (delete note (activeNotes o))
              (set_voices (<[r := stop_oscillator v]> (voices o)) o)).
Proof.
  intros (Hact & _) Hnote. destruct (Hact _ _ Hnote) as (v & Hv & Hn & Hs).
  exists v. repeat split; try assumption.
  unfold entry_stop. rewrite Hv, Hn. reflexivity.
Qed.

Lemma consistent_entry_stop (o : BaseOscillator) (note : Z) (r : nat) :
  consistent o -> activeNotes o !! note = Some r ->
  consistent (entry_stop r o).
Proof.
  intros Hc Hnote.
  destruct (entry_stop_active o note r Hc Hnote) as (v & Hv & Hn & Hs & ->).
  destruct Hc as (Hact & Hsnd & Hsus).
  assert (Hr : (r < length (voices o))%nat) by (eapply lookup_lt_Some, Hv).
  split; [| split]; simpl.
  - intros n r' Hn'. apply lookup_delete_Some in Hn' as [Hne Hn'].
    destruct (Hact _ _ Hn') as (v' & Hv' & Hvn & Hvs).
    exists v'. repeat split; try assumption.
    rewrite list_lookup_insert_ne; [assumption | congruence].
  - intros r' v' Hv' Hs'.
    destruct (decide (r = r')) as [<- | Hne].
    + rewrite list_lookup_insert_eq in Hv' by exact Hr.
      injection Hv' as <-. discriminate.
    + rewrite list_lookup_insert_ne in Hv' by exact Hne.
      pose proof (Hsnd _ _ Hv' Hs') as Hentry.
      rewrite lookup_delete_ne; [assumption | congruence].
  - intros n Hhas. rewrite set_has_delete in Hhas.
    apply andb_true_iff in Hhas as [Hne Hhas].
    apply negb_true_iff, bool_decide_eq_false in Hne.
    rewrite lookup_delete_ne by congruence. apply Hsus, Hhas.
Qed.

Lemma consistent_get_stop (o : BaseOscillator) (note : Z) :
  consistent o -> consistent (get_stop note o).
Proof.
  intros Hc. unfold get_stop.
  destruct (activeNotes o !! note) as [r |] eqn:Hnote; [| exact Hc].
  eapply consistent_entry_stop; eassumption.
Qed.

Lemma get_stop_inactive (o : BaseOscillator) (note : Z) :
  consistent o -> activeNotes (get_stop note o) !! note = None.
Proof.
  intros Hc. unfold get_stop.
  destruct (activeNotes o !! note) as [r |] eqn:Hnote; [| exact Hnote].
  destruct (entry_stop_active o note r Hc Hnote) as (v & _ & _ & _ & ->).
  simpl. apply lookup_delete_eq.
Qed.

Lemma length_voices_entry_stop (o : BaseOscillator) (r : nat) :
  length (voices (entry_stop r o)) = length (voices o).
Proof.
  unfold entry_stop. destruct (voices o !! r); [| reflexivity].
  simpl. apply length_insert.
Qed.

Lemma length_voices_get_stop (o : BaseOscillator) (note : Z) :
  length (voices (get_stop note o)) = length (voices o).
Proof.
  unfold get_stop. destruct (activeNotes o !! note); [| reflexivity].
  apply length_voices_entry_stop.
Qed.

Lemma consistent_stop (o : BaseOscillator) (note : Z) :
  consistent o -> consistent (stop note o).
Proof.
  intros Hc. unfold stop. destruct (sustainActive o).
  - destruct (bool_decide_reflect (is_Some (activeNotes o !! note)))
      as [Hsome | _]; simpl; [| exact Hc].
    destruct (set_has note (sustainedNotes o)); simpl; [exact Hc |].
    destruct Hc as (Hact & Hsnd & Hsus). split; [| split]; simpl; try assumption.
    intros n Hhas. rewrite set_has_add in Hhas.
    apply orb_true_iff in Hhas as [Heq | Hhas].
    + apply bool_decide_eq_true in Heq. subst n. exact Hsome.
    + apply Hsus, Hhas.
  - apply consistent_get_stop, Hc.
Qed.

(** ** The loop of [__onSustainOff] *)

Lemma set_has_lookup (s : list (option Z)) (index : nat) (note : Z) :
  s !! index = Some (Some note) -> set_has note s = true.
Proof.
  intros Hslot. apply set_has_true. eapply list_elem_of_lookup_2, Hslot.
Qed.

Lemma set_has_drop_slot (s : list (option Z)) (index : nat) (e : option Z)
  (n : Z) :
  s !! index = Some e ->
  set_has n (drop index s) = slot_is n e || set_has n (drop (S index) s).
Proof.
  intros Hslot. rewrite (drop_S _ _ _ Hslot). apply set_has_cons.
Qed.

Lemma set_has_take_slot (s : list (option Z)) (index : nat) (e : option Z)
  (n : Z) :
  s !! index = Some e ->
  set_has n (take (S index) s) = set_has n (take index s) || slot_is n e.
Proof.
  intros Hslot. rewrite (take_S_r _ _ _ Hslot), set_has_app. simpl.
  rewrite orb_false_r. reflexivity.
Qed.

Lemma slot_is_some (n note : Z) :
  slot_is n (Some note) = bool_decide (n = note).
Proof. unfold slot_is. apply bool_decide_ext. split; congruence. Qed.

(** With more fuel than entries left, the loop ends, having stopped every
    note found from [index] on. *)
Lemma stop_sustained_spec (fuel : nat) :
  forall (index : nat) (o : BaseOscillator),
    sustainActive o = false -> consistent o ->
    (length (sustainedNotes o) - index < fuel)%nat ->
    exists o',
      stop_sustained fuel index o = Some o'
      /\ flushed (fun n => set_has n (drop index (sustainedNotes o))) o o'
      /\ (forall n, set_has n (sustainedNotes o')
                    = set_has n (take index (sustainedNotes o))
                      && negb (set_has n (drop index (sustainedNotes o)))).
Proof.
  induction fuel as [| fuel IH]; intros index o Hsa Hc Hfuel; [lia |].
  simpl. destruct (sustainedNotes o !! index) as [[note |] |] eqn:Hslot.
  - (* a note: it is stopped, and the iterator moves on *)
    pose proof (set_has_lookup _ _ _ Hslot) as Hhas.
    destruct (proj2 (proj2 Hc) _ Hhas) as [r Hr].
    assert (Hstop : stop note o = entry_stop r o).
    { unfold stop, get_stop. rewrite Hsa, Hr. reflexivity. }
    destruct (entry_stop_active o note r Hc Hr) as (v & Hv & Hn & Hs & Heq).
    pose proof (consistent_entry_stop o note r Hc Hr) as Hc1.
    pose proof (lookup_lt_Some _ _ _ Hslot) as Hlt.
    rewrite Hstop.
    assert (Hvo1 : voices (entry_stop r o)
                   = <[r := stop_oscillator v]> (voices o))
      by (rewrite Heq; reflexivity).
    assert (Hao1 : activeNotes (entry_stop r o) = delete note (activeNotes o))
      by (rewrite Heq; reflexivity).
    assert (Hso1 : sustainedNotes (entry_stop r o)
                   = set_delete note (sustainedNotes o))
      by (rewrite Heq; reflexivity).
    destruct (IH (S index) (entry_stop r o)) as (o' & Hrun & Hfl & Hset).
    { rewrite Heq. exact Hsa. }
    { exact Hc1. }
    { rewrite Hso1, length_set_delete. lia. }
    exists o'. split; [exact Hrun |].
    assert (HP1 : forall n,
               set_has n (drop (S index) (sustainedNotes (entry_stop r o)))
               = negb (bool_decide (n = note))
                 && set_has n (drop (S index) (sustainedNotes o))).
    { intros n. rewrite Hso1. unfold set_delete at 1.
      rewrite <- fmap_drop. apply set_has_delete. }
    assert (HP : forall n,
               set_has n (drop index (sustainedNotes o))
               = bool_decide (n = note)
                 || set_has n (drop (S index) (sustainedNotes o))).
    { intros n. rewrite (set_has_drop_slot _ _ _ _ Hslot), slot_is_some.
      reflexivity. }
    destruct Hfl as (Hc' & Hsa' & Hd & Hda & Hsp & Hw & Hin & Hlen & Hact' & Hv').
    split.
    + split; [exact Hc' |]. split; [exact Hsa' |].
      rewrite Heq in Hd, Hda, Hsp, Hw, Hin. simpl in Hd, Hda, Hsp, Hw, Hin.
      rewrite Hso1, length_set_delete in Hlen.
      repeat (split; [assumption |]).
      split.
      * intros n. rewrite Hact', HP1, HP, Hao1.
        destruct (bool_decide_reflect (n = note)) as [-> | Hne]; simpl.
        -- apply lookup_delete_eq.
        -- rewrite lookup_delete_ne by congruence. reflexivity.
      * intros r'. rewrite Hv', Hvo1.
        destruct (decide (r = r')) as [<- | Hne].
        -- rewrite list_lookup_insert_eq by (eapply lookup_lt_Some, Hv).
           rewrite Hv. simpl. f_equal.
           rewrite HP1, HP, Hn.
           rewrite bool_decide_eq_true_2 by reflexivity. reflexivity.
        -- rewrite list_lookup_insert_ne by exact Hne.
           destruct (voices o !! r') as [w |] eqn:Hw'; [| reflexivity].
           simpl. f_equal. rewrite HP1, HP.
           destruct (bool_decide_reflect (stop_note w = note)) as [Hwn | _];
             simpl; [| reflexivity].
           destruct (sounding w) eqn:Hws.
           ++ pose proof (proj1 (proj2 Hc) _ _ Hw' Hws). congruence.
           ++ apply eq_sym, stop_oscillator_stopped, Hws.
    + intros n. rewrite Hset, HP1, HP, Hso1.
      unfold set_delete at 1. rewrite <- fmap_take.
      fold (set_delete note (take (S index) (sustainedNotes o))).
      rewrite set_has_delete, (set_has_take_slot _ _ _ _ Hslot), slot_is_some.
      destruct (bool_decide (n = note)),
        (set_has n (take index (sustainedNotes o))),
        (set_has n (drop (S index) (sustainedNotes o))); reflexivity.
  - (* an empty slot is skipped *)
    pose proof (lookup_lt_Some _ _ _ Hslot) as Hlt.
    destruct (IH (S index) o Hsa Hc) as (o' & Hrun & Hfl & Hset); [lia |].
    exists o'. split; [exact Hrun |].
    assert (HP : forall n,
               set_has n (drop index (sustainedNotes o))
               = set_has n (drop (S index) (sustainedNotes o))).
    { intros n. rewrite (set_has_drop_slot _ _ _ _ Hslot). reflexivity. }
    split.
    + destruct Hfl as (? & ? & ? & ? & ? & ? & ? & ? & Hact' & Hv').
      repeat (split; [assumption |]). split.
      * intros n. rewrite Hact', HP. reflexivity.
      * intros r. rewrite Hv'. destruct (voices o !! r) as [w |]; [| reflexivity].
        simpl. rewrite HP. reflexivity.
    + intros n. rewrite Hset, HP, (set_has_take_slot _ _ _ _ Hslot).
      simpl. rewrite orb_false_r. reflexivity.
  - (* past the last entry: the iterator is done *)
    apply lookup_ge_None in Hslot.
    exists o. split; [reflexivity |].
    rewrite (drop_ge _ _ Hslot), (take_ge _ _ Hslot). split.
    + repeat (split; [done |]).
      intros r. destruct (voices o !! r); reflexivity.
    + intros n. simpl. rewrite andb_true_r. reflexivity.
Qed.

Lemma __onSustainOff_spec (o : BaseOscillator) :
  consistent o ->
  exists o',
    __onSustainOff o = Some o'
    /\ flushed (fun n => set_has n (sustainedNotes o)) o o'
    /\ (forall n, set_has n (sustainedNotes o') = false).
Proof.
  intros Hc. unfold __onSustainOff.
  destruct (stop_sustained_spec
              (S (length (sustainedNotes o))) 0 (set_sustainActive false o))
    as (o' & Hrun & Hfl & Hset).
  - reflexivity.
  - eapply consistent_scalar; [..| exact Hc]; reflexivity.
  - simpl. lia.
  - exists o'. split; [exact Hrun |]. split; [exact Hfl |].
    intros n. rewrite Hset. reflexivity.
Qed.

(** ** Starting a note *)

Section BaseOscillatorProperties.

Variable pow : float -> float -> float.

Lemma get_stop_scalars (note : Z) (o : BaseOscillator) :
  detune (get_stop note o) = detune o
  /\ detuneAmount (get_stop note o) = detuneAmount o
  /\ stickyPitchBend (get_stop note o) = stickyPitchBend o
  /\ sustainActive (get_stop note o) = sustainActive o
  /\ waveform (get_stop note o) = waveform o
  /\ isNoteOn (get_stop note o) = isNoteOn o.
Proof.
  unfold get_stop, entry_stop.
  destruct (activeNotes o !! note) as [r |]; [| done].
  destruct (voices o !! r); done.
Qed.

(** [start] stops the entry of the note, if there is one, then appends the
    new voice and makes it the entry of the note. *)
Lemma start_eq (note : Z) (velocity : option float) (o : BaseOscillator) :
  start pow note velocity o
  = set_activeNotes
      (<[note := length (voices o)]> (activeNotes (get_stop note o)))
      (set_voices
         (voices (get_stop note o) ++ [new_voice pow note velocity o])
         (get_stop note o)).
Proof.
  assert (Hif : (if bool_decide (is_Some (activeNotes o !! note))
                 then get_stop note o else o) = get_stop note o).
  { case_bool_decide as Hsome; [reflexivity |].
    unfold get_stop. destruct (activeNotes o !! note); [| reflexivity].
    exfalso. apply Hsome. eauto. }
  unfold start. rewrite Hif. unfold new_voice.
  destruct (get_stop_scalars note o) as (-> & _ & _ & _ & -> & _).
  rewrite length_voices_get_stop. reflexivity.
Qed.

Lemma consistent_start (note : Z) (velocity : option float)
  (o : BaseOscillator) :
  consistent o -> consistent (start pow note velocity o).
Proof.
  intros Hc. rewrite start_eq.
  pose proof (consistent_get_stop o note Hc) as (Hact & Hsnd & Hsus).
  pose proof (get_stop_inactive o note Hc) as Hnone.
  pose proof (length_voices_get_stop o note) as Hlen.
  set (o1 := get_stop note o) in *.
  split; [| split]; simpl.
  - intros n r Hn. apply lookup_insert_Some in Hn as [[<- <-] | [Hne Hn]].
    + exists (new_voice pow note velocity o).
      rewrite <- Hlen, list_lookup_middle by reflexivity. done.
    + destruct (Hact _ _ Hn) as (v & Hv & Hvn & Hvs).
      exists v. rewrite lookup_app_l by (eapply lookup_lt_Some, Hv). done.
  - intros r v Hv Hs. apply lookup_app_Some in Hv as [Hv | [Hge Hv]].
    + pose proof (Hsnd _ _ Hv Hs) as Hentry.
      rewrite lookup_insert_ne by congruence. exact Hentry.
    + destruct (r - length (voices o1))%nat as [| k] eqn:Hk; [| done].
      injection Hv as <-. simpl.
      replace r with (length (voices o)) by lia. apply lookup_insert_eq.
  - intros n Hhas. apply lookup_insert_is_Some'. right. apply Hsus, Hhas.
Qed.

(** ** Every event keeps the invariant, and every run ends *)

Lemma consistent_detune_stop (f : bool) (o : BaseOscillator) :
  consistent o -> consistent (__onDetuneStop f o).
Proof.
  intros Hc. unfold __onDetuneStop.
  destruct f; simpl; [| exact Hc].
  destruct (stickyPitchBend o); [exact Hc |].
  apply (consistent_set_voices (set_detune _ o)).
  - eapply consistent_scalar; [..| exact Hc]; reflexivity.
  - intros r. apply (detune_active_keeps (set_detune _ o)).
Qed.

Lemma consistent_handle (e : Event) (o : BaseOscillator) :
  consistent o ->
  exists o', handle pow e o = Some o' /\ consistent o'.
Proof.
  intros Hc.
  destruct e as [note velocity | note | | | fader | input | f | r
                | target_id | checked mouseup];
    simpl.
  - eexists. split; [reflexivity |]. unfold __onNoteOn.
    apply consistent_start.
    eapply consistent_scalar; [..| exact Hc]; reflexivity.
  - eexists. split; [reflexivity |]. unfold __onNoteOff.
    apply consistent_stop.
    eapply consistent_scalar; [..| exact Hc]; reflexivity.
  - eexists. split; [reflexivity |].
    eapply consistent_scalar; [..| exact Hc]; reflexivity.
  - destruct (__onSustainOff_spec o Hc) as (o' & Hrun & Hfl & _).
    exists o'. split; [exact Hrun | apply Hfl].
  - eexists. split; [reflexivity |]. destruct fader as [x |]; [| exact Hc].
    simpl. apply (consistent_set_voices (set_detune _ o)).
    + eapply consistent_scalar; [..| exact Hc]; reflexivity.
    + intros r. apply (detune_active_keeps (set_detune _ o)).
  - eexists. split; [reflexivity |]. destruct input as [x |]; [| exact Hc].
    eapply consistent_scalar; [..| exact Hc]; reflexivity.
  - eexists. split; [reflexivity |]. unfold __onDetuneStop.
    destruct f; simpl; [| exact Hc].
    destruct (stickyPitchBend o); [exact Hc |].
    apply (consistent_set_voices (set_detune _ o)).
    + eapply consistent_scalar; [..| exact Hc]; reflexivity.
    + intros r. apply (detune_active_keeps (set_detune _ o)).
  - eexists. split; [reflexivity |]. unfold dispatch_ended.
    destruct (voices o !! r) as [v |]; [| exact Hc].
    destruct (osc_stopped (oscillator v)); [| exact Hc].
    apply consistent_set_voices; [exact Hc |].
    intros r'. destruct (decide (r = r')) as [<- | Hne].
    + exists disconnect_nodes. split; [apply keeps_disconnect |].
      apply list_lookup_alter_eq.
    + exists id. split; [done |].
      rewrite list_lookup_alter_ne by exact Hne.
      by rewrite option_fmap_id.
  - eexists. split; [reflexivity |]. unfold __onWaveform.
    destruct target_id as [id |]; [| exact Hc].
    destruct (negb _); [exact Hc |].
    destruct (waveform_of_key _); [| exact Hc].
    eapply consistent_scalar; [..| exact Hc]; reflexivity.
  - eexists. split; [reflexivity |]. unfold __onStickyToggle.
    destruct checked as [b |]; [| exact Hc].
    assert (Hb : consistent (set_stickyPitchBend b o))
      by (eapply consistent_scalar; [..| exact Hc]; reflexivity).
    destruct mouseup as [f |]; [| exact Hb].
    apply consistent_detune_stop, Hb.
Qed.

Lemma run_consistent (es : list Event) :
  forall o, consistent o ->
    exists o', run pow es o = Some o' /\ consistent o'.
Proof.
  induction es as [| e es IH]; intros o Hc; simpl.
  - exists o. split; [reflexivity | exact Hc].
  - destruct (consistent_handle e o Hc) as (o1 & -> & Hc1).
    apply IH, Hc1.
Qed.

Lemma run_new (es : list Event) :
  exists o, run pow es new_BaseOscillator = Some o /\ consistent o.
Proof. apply run_consistent, consistent_new. Qed.

(** ** Voices and notes *)

(** The sounding voices of a note are the entry of the note, if any. *)
Lemma live_voices_entry (note : Z) (o : BaseOscillator) :
  consistent o ->
  live_voices note o = option_list (activeNotes o !! note).
Proof.
  intros (Hact & Hsnd & _).
  assert (Hin : forall r,
             r ∈ live_voices note o <-> activeNotes o !! note = Some r).
  { intros r. unfold live_voices. rewrite list_elem_of_filter, elem_of_seq.
    split.
    - intros [Hp _]. destruct (voices o !! r) as [v |] eqn:Hv; [| done].
      apply andb_true_iff in Hp as [Hs Hn].
      apply bool_decide_eq_true in Hn. subst note. apply Hsnd; assumption.
    - intros Hr. destruct (Hact _ _ Hr) as (v & Hv & Hn & Hs).
      rewrite Hv, Hs, Hn. split.
      + rewrite bool_decide_eq_true_2; reflexivity.
      + apply lookup_lt_Some in Hv. lia. }
  assert (Hnd : NoDup (live_voices note o)).
  { unfold live_voices. apply NoDup_filter, NoDup_seq. }
  destruct (activeNotes o !! note) as [r |]; simpl.
  - apply Permutation_singleton_r, NoDup_Permutation.
    + exact Hnd.
    + apply NoDup_singleton.
    + intros r'. rewrite Hin, list_elem_of_singleton.
      split; congruence.
  - apply elem_of_nil_inv. intros r. rewrite Hin. discriminate.
Qed.

Lemma sustained_inactive (note : Z) (o : BaseOscillator) :
  consistent o -> activeNotes o !! note = None ->
  set_has note (sustainedNotes o) = false.
Proof.
  intros (_ & _ & Hsus) Hnone. apply not_true_iff_false. intros Hhas.
  destruct (Hsus _ Hhas) as [r Hr]. congruence.
Qed.

(** What [start] does to a consistent oscillator. *)
Lemma start_spec (note : Z) (velocity : option float) (o : BaseOscillator) :
  consistent o ->
  let o' := start pow note velocity o in
  let r' := length (voices o) in
  activeNotes o' !! note = Some r'
  /\ voices o' !! r' = Some (new_voice pow note velocity o)
  /\ length (voices o') = S (length (voices o))
  /\ set_has note (sustainedNotes o') = false
  /\ (forall r, activeNotes o !! note = Some r ->
        (r < r')%nat
        /\ exists v, voices o !! r = Some v /\ sounding v = true
                     /\ voices o' !! r = Some (stop_oscillator v))
  /\ (forall n, n <> note -> activeNotes o' !! n = activeNotes o !! n)
  /\ (forall n, n <> note ->
        set_has n (sustainedNotes o') = set_has n (sustainedNotes o)).
Proof.
  intros Hc o' r'. subst o' r'. rewrite start_eq. simpl.
  pose proof (length_voices_get_stop o note) as Hlen.
  split; [apply lookup_insert_eq |].
  split; [rewrite <- Hlen; apply list_lookup_middle; reflexivity |].
  split; [rewrite length_app, Hlen; simpl; lia |].
  unfold get_stop in *.
  destruct (activeNotes o !! note) as [r |] eqn:Hr.
  - destruct (entry_stop_active o note r Hc Hr) as (v & Hv & Hn & Hs & Heq).
    rewrite Heq in *. simpl. clear Heq.
    pose proof (lookup_lt_Some _ _ _ Hv) as Hlt.
    split; [rewrite set_has_delete, bool_decide_eq_true_2 by reflexivity;
            reflexivity |].
    split; [| split].
    + intros r0 [= <-]. split; [exact Hlt |]. exists v.
      split; [exact Hv |]. split; [exact Hs |].
      rewrite lookup_app_l by (rewrite length_insert; exact Hlt).
      apply list_lookup_insert_eq, Hlt.
    + intros n Hne. rewrite lookup_insert_ne, lookup_delete_ne by congruence.
      reflexivity.
    + intros n Hne. rewrite set_has_delete.
      rewrite bool_decide_eq_false_2 by exact Hne. reflexivity.
  - split; [apply sustained_inactive; assumption |].
    split; [discriminate |]. split.
    + intros n Hne. apply lookup_insert_ne. congruence.
    + reflexivity.
Qed.

(** C1: after any sequence of events, a note has at most one sounding
    voice, the entry of the note in [activeNotes]; and [noteOn] for a note
    stops the voice the note has (whatever [sustainActive] is, and taking
    the note out of [sustainedNotes]) and leaves exactly the voice it
    creates sounding for that note. *)
Theorem one_live_voice_per_note (es : list Event) :
  exists o,
    run pow es new_BaseOscillator = Some o
    /\ (forall note,
          (length (live_voices note o) <= 1)%nat
          /\ live_voices note o = option_list (activeNotes o !! note))
    /\ (forall note velocity,
          let o' := __onNoteOn pow note velocity o in
          let r' := length (voices o) in
          live_voices note o' = [r']
          /\ activeNotes o' !! note = Some r'
          /\ set_has note (sustainedNotes o') = false
          /\ (forall r, activeNotes o !! note = Some r ->
                r <> r'
                /\ exists v, voices o !! r = Some v /\ sounding v = true
                             /\ voices o' !! r = Some (stop_oscillator v)))
    /\ (exists o2,
          run pow [SustainOn; NoteOn 60 None; NoteOn 60 None]
              new_BaseOscillator = Some o2
          /\ live_voices 60 o2 = [1%nat]
          /\ sounding <$> voices o2 !! 0%nat = Some false).
Proof.
  destruct (run_new es) as (o & Hrun & Hc).
  exists o. split; [exact Hrun |]. split; [| split].
  - intros note. rewrite (live_voices_entry note o Hc).
    split; [| reflexivity].
    destruct (activeNotes o !! note); simpl; lia.
  - intros note velocity o' r'. subst o' r'. unfold __onNoteOn.
    assert (Hc2 : consistent (set_isNoteOn true o))
      by (eapply consistent_scalar; [..| exact Hc]; reflexivity).
    destruct (start_spec note velocity _ Hc2)
      as (Hentry & _ & _ & Hsus & Hold & _).
    change (voices (set_isNoteOn true o)) with (voices o) in Hentry, Hold.
    change (activeNotes (set_isNoteOn true o)) with (activeNotes o) in Hold.
    rewrite (live_voices_entry note _ (consistent_start _ _ _ Hc2)).
    rewrite Hentry. split; [reflexivity |]. split; [reflexivity |].
    split; [exact Hsus |].
    intros r Hr. destruct (Hold r Hr) as (Hlt & v & Hv & Hs & Hv').
    split; [lia |]. exists v. done.
  - eexists. split; [reflexivity |]. evaluate.
Qed.

(** ** Sustained notes are active notes *)

Lemma get_stop_spec (note : Z) (o : BaseOscillator) :
  consistent o ->
  activeNotes (get_stop note o) !! note = None
  /\ (forall n, n <> note ->
        activeNotes (get_stop note o) !! n = activeNotes o !! n)
  /\ (forall n, set_has n (sustainedNotes (get_stop note o))
                = negb (bool_decide (n = note))
                  && set_has n (sustainedNotes o)).
Proof.
  intros Hc. split; [apply get_stop_inactive, Hc |].
  unfold get_stop. destruct (activeNotes o !! note) as [r |] eqn:Hr.
  - destruct (entry_stop_active o note r Hc Hr) as (v & _ & _ & _ & ->).
    simpl. split.
    + intros n Hne. apply lookup_delete_ne. congruence.
    + intros n. apply set_has_delete.
  - split; [reflexivity |]. intros n.
    destruct (bool_decide_reflect (n = note)) as [-> | _]; simpl.
    + apply sustained_inactive; assumption.
    + reflexivity.
Qed.

(** One event: a note enters [sustainedNotes] only if it is active, and
    wherever the entry of a note changes, the note is out of
    [sustainedNotes] afterwards. *)
Lemma handle_sustained (e : Event) (o o' : BaseOscillator) :
  consistent o -> handle pow e o = Some o' ->
  forall note,
    (set_has note (sustainedNotes o') = true ->
     set_has note (sustainedNotes o) = true
     \/ is_Some (activeNotes o !! note))
    /\ (activeNotes o' !! note = activeNotes o !! note
        \/ set_has note (sustainedNotes o') = false).
Proof.
  intros Hc He note.
  destruct e as [n0 velocity | n0 | | | fader | input | f | r
                | target_id | checked mouseup];
    simpl in He.
  - injection He as <-. unfold __onNoteOn.
    assert (Hc2 : consistent (set_isNoteOn true o))
      by (eapply consistent_scalar; [..| exact Hc]; reflexivity).
    destruct (start_spec n0 velocity _ Hc2)
      as (_ & _ & _ & Hsus & _ & Hact & Hset).
    destruct (decide (note = n0)) as [-> | Hne].
    + rewrite Hsus. split; [discriminate | right; reflexivity].
    + rewrite (Hset _ Hne), (Hact _ Hne). split; [| left]; auto.
  - injection He as <-. unfold __onNoteOff, stop. simpl.
    destruct (sustainActive o).
    + destruct (bool_decide_reflect (is_Some (activeNotes o !! n0)))
        as [Hsome | _]; simpl; [| split; auto].
      destruct (set_has n0 (sustainedNotes o)) eqn:Hhas; simpl;
        [split; auto |].
      split; [| left; reflexivity].
      rewrite set_has_add. intros Hor.
      apply orb_true_iff in Hor as [Heq | Hold]; [| left; exact Hold].
      apply bool_decide_eq_true in Heq. subst. right. exact Hsome.
    + assert (Hc2 : consistent (set_isNoteOn false o))
        by (eapply consistent_scalar; [..| exact Hc]; reflexivity).
      destruct (get_stop_spec n0 _ Hc2) as (_ & Hact & Hset).
      rewrite Hset. simpl.
      destruct (bool_decide_reflect (note = n0)) as [-> | Hne]; simpl.
      * split; [discriminate | right; reflexivity].
      * rewrite (Hact _ Hne). split; auto.
  - injection He as <-. simpl. split; auto.
  - destruct (__onSustainOff_spec o Hc) as (o2 & Hrun & _ & Hnone).
    rewrite Hrun in He. injection He as <-.
    rewrite Hnone. split; [discriminate | right; reflexivity].
  - injection He as <-. destruct fader; simpl; split; auto.
  - injection He as <-. destruct input; simpl; split; auto.
  - injection He as <-. unfold __onDetuneStop.
    destruct f; simpl; [| split; auto].
    destruct (stickyPitchBend o); simpl; split; auto.
  - injection He as <-. unfold dispatch_ended.
    destruct (voices o !! r) as [v |]; [| split; auto].
    destruct (osc_stopped (oscillator v)); simpl; split; auto.
  - injection He as <-. unfold __onWaveform.
    destruct target_id as [id |]; [| split; auto].
    destruct (negb _); [split; auto |].
    destruct (waveform_of_key _); simpl; split; auto.
  - injection He as <-. unfold __onStickyToggle, __onDetuneStop.
    destruct checked as [b |]; [| split; auto].
    destruct mouseup as [f |]; [| simpl; split; auto].
    destruct f; simpl; [| split; auto].
    destruct b; simpl; split; auto.
Qed.

(** C10: after any sequence of events every note of [sustainedNotes] is a
    key of [activeNotes].  Every further event keeps it so: a note it adds
    to [sustainedNotes] was active, and a note whose entry it removes or
    replaces is out of [sustainedNotes] afterwards; after the loop of
    [__onSustainOff] no note is left in [sustainedNotes]. *)
Theorem sustained_subset_active (es : list Event) :
  exists o,
    run pow es new_BaseOscillator = Some o
    /\ (forall note, set_has note (sustainedNotes o) = true ->
          is_Some (activeNotes o !! note))
    /\ (forall e, exists o',
          handle pow e o = Some o'
          /\ (forall note, set_has note (sustainedNotes o') = true ->
                is_Some (activeNotes o' !! note))
          /\ (forall note, set_has note (sustainedNotes o') = true ->
                set_has note (sustainedNotes o) = false ->
                is_Some (activeNotes o !! note))
          /\ (forall note r, activeNotes o !! note = Some r ->
                activeNotes o' !! note <> Some r ->
                set_has note (sustainedNotes o') = false))
    /\ (exists o',
          __onSustainOff o = Some o'
          /\ forall note, set_has note (sustainedNotes o') = false).
Proof.
  destruct (run_new es) as (o & Hrun & Hc).
  exists o. split; [exact Hrun |]. split; [apply Hc |]. split.
  - intros e. destruct (consistent_handle e o Hc) as (o' & He & Hc').
    exists o'. split; [exact He |]. split; [apply Hc' |].
    pose proof (handle_sustained e o o' Hc He) as Hstep. split.
    + intros note Hhas Hnot. destruct (proj1 (Hstep note) Hhas); congruence.
    + intros note r Hr Hr'.
      destruct (proj2 (Hstep note)) as [Hsame | Hout]; congruence.
  - destruct (__onSustainOff_spec o Hc) as (o' & Hoff & _ & Hnone).
    exists o'. split; assumption.
Qed.

(** ** The sustain pedal *)

(** C2: while sustain is active, [noteOff] for an active note leaves its
    voice sounding and puts the note in [sustainedNotes]; [sustainOff]
    then sets [sustainActive] to false, stops the voice of every note of
    [sustainedNotes], removes its entry, and leaves [sustainedNotes] with
    no note.  After [sustainOn(); noteOn(60); noteOff(60)] the voice of
    note 60 sounds and 60 is sustained; after [sustainOff()] it is stopped
    and no note is sustained. *)
Theorem sustain_defers_release (es : list Event) :
  exists o,
    run pow es new_BaseOscillator = Some o
    /\ (forall note r,
          sustainActive o = true -> activeNotes o !! note = Some r ->
          let o' := __onNoteOff note o in
          activeNotes o' = activeNotes o /\ voices o' = voices o
          /\ sustainActive o' = true
          /\ set_has note (sustainedNotes o') = true
          /\ sounding <$> voices o' !! r = Some true)
    /\ (exists o',
          __onSustainOff o = Some o'
          /\ sustainActive o' = false
          /\ (forall note r,
                set_has note (sustainedNotes o) = true ->
                activeNotes o !! note = Some r ->
                activeNotes o' !! note = None
                /\ sounding <$> voices o' !! r = Some false)
          /\ (forall note,
                set_has note (sustainedNotes o) = false ->
                activeNotes o' !! note = activeNotes o !! note)
          /\ (forall note, set_has note (sustainedNotes o') = false)
          /\ Forall (fun e => e = None) (sustainedNotes o'))
    /\ (exists o1 o2,
          run pow [SustainOn; NoteOn 60 None; NoteOff 60] new_BaseOscillator
          = Some o1
          /\ activeNotes o1 !! 60 = Some 0%nat
          /\ sounding <$> voices o1 !! 0%nat = Some true
          /\ set_has 60 (sustainedNotes o1) = true
          /\ handle pow SustainOff o1 = Some o2
          /\ sustainActive o2 = false
          /\ sounding <$> voices o2 !! 0%nat = Some false
          /\ activeNotes o2 !! 60 = None
          /\ sustainedNotes o2 = [None]).
Proof.
  destruct (run_new es) as (o & Hrun & Hc).
  exists o. split; [exact Hrun |]. split; [| split].
  - intros note r Hsa Hr o'. subst o'. unfold __onNoteOff, stop. simpl.
    rewrite Hsa, Hr.
    rewrite bool_decide_eq_true_2 by eauto. simpl.
    destruct (proj1 Hc _ _ Hr) as (v & Hv & _ & Hs).
    destruct (set_has note (sustainedNotes o)) eqn:Hhas; simpl.
    + rewrite Hv. simpl. rewrite Hs. done.
    + rewrite Hv. simpl. rewrite Hs, set_has_add.
      rewrite bool_decide_eq_true_2 by reflexivity. done.
  - destruct (__onSustainOff_spec o Hc) as (o' & Hoff & Hfl & Hnone).
    destruct Hfl as (_ & Hsa' & _ & _ & _ & _ & _ & _ & Hact' & Hv').
    exists o'. split; [exact Hoff |]. split; [exact Hsa' |].
    split; [| split; [| split]].
    + intros note r Hhas Hr. rewrite Hact', Hhas. split; [reflexivity |].
      destruct (proj1 Hc _ _ Hr) as (v & Hv & Hn & _).
      rewrite Hv', Hv. simpl. rewrite Hn, Hhas. reflexivity.
    + intros note Hhas. rewrite Hact', Hhas. reflexivity.
    + exact Hnone.
    + apply set_has_empty_slots, Hnone.
  - do 2 eexists. split; [reflexivity |]. evaluate.
Qed.

(** ** Detune *)

Lemma length_detune_active (o : BaseOscillator) :
  length (voices (detune_active o)) = length (voices o).
Proof.
  unfold detune_active. simpl.
  induction (map_to_list (activeNotes o)) as [| e entries IH];
    [reflexivity |].
  simpl. rewrite length_alter. exact IH.
Qed.

(** C8: an input of the pitch fader sets [detune] to
    [value * detuneAmount * 100] and gives that detune to the oscillator of
    every voice that is an entry of [activeNotes], creating no voice and
    changing no entry; the other voices are as before.  With two notes
    held, both oscillators get the new detune. *)
Theorem detune_reaches_active_voices (es : list Event) :
  exists o,
    run pow es new_BaseOscillator = Some o
    /\ (forall valueAsNumber,
          let o' := __onDetune (Some valueAsNumber) o in
          detune o' = (valueAsNumber * detuneAmount o * 100)%float
          /\ activeNotes o' = activeNotes o
          /\ length (voices o') = length (voices o)
          /\ (forall note r, activeNotes o !! note = Some r ->
                exists v,
                  voices o !! r = Some v
                  /\ voices o' !! r = Some (detune_oscillator (detune o') v)
                  /\ sounding (detune_oscillator (detune o') v) = true)
          /\ (forall r, (forall note, activeNotes o !! note <> Some r) ->
                voices o' !! r = voices o !! r))
    /\ (exists o1 o2,
          run pow [NoteOn 60 None; NoteOn 64 None] new_BaseOscillator
          = Some o1
          /\ handle pow (DetuneInput (Some 0.5%float)) o1 = Some o2
          /\ detune o2 = 100%float
          /\ activeNotes o2 = activeNotes o1
          /\ length (voices o2) = 2%nat
          /\ activeNotes o2 !! 60 = Some 0%nat
          /\ activeNotes o2 !! 64 = Some 1%nat
          /\ (fun v => osc_detune (oscillator v)) <$> voices o1 !! 0%nat
             = Some 0%float
          /\ (fun v => osc_detune (oscillator v)) <$> voices o1 !! 1%nat
             = Some 0%float
          /\ (fun v => osc_detune (oscillator v)) <$> voices o2 !! 0%nat
             = Some 100%float
          /\ (fun v => osc_detune (oscillator v)) <$> voices o2 !! 1%nat
             = Some 100%float).
Proof.
  destruct (run_new es) as (o & Hrun & Hc).
  exists o. split; [exact Hrun |]. split.
  - intros x o'. subst o'. unfold __onDetune.
    split; [reflexivity |]. split; [reflexivity |].
    split; [apply (length_detune_active (set_detune _ o)) |]. split.
    + intros note r Hr. destruct (proj1 Hc _ _ Hr) as (v & Hv & _ & Hs).
      exists v. split; [exact Hv |].
      rewrite (detune_active_entry (set_detune _ o) note r Hr).
      cbn [voices set_detune]. rewrite Hv. done.
    + intros r Hnone.
      apply (detune_active_other (set_detune _ o) r Hnone).
  - do 2 eexists. split; [reflexivity |]. evaluate.
Qed.

(** ** Releasing a note that is not active *)

(** C9: [noteOff] for a note with no entry in [activeNotes] changes
    nothing, sustain active or not: [stop] returns the oscillator as it
    is, so notes, sustained notes, pedal, controller fields and voices are
    what they were ([__onNoteOff] itself only clears its [isNoteOn]
    flag). *)
Theorem noteOff_inactive_noop (note : Z) (o : BaseOscillator) :
  activeNotes o !! note = None ->
  stop note o = o
  /\ __onNoteOff note o = set_isNoteOn false o
  /\ (let o' := __onNoteOff note o in
      activeNotes o' = activeNotes o
      /\ sustainedNotes o' = sustainedNotes o
      /\ sustainActive o' = sustainActive o
      /\ detune o' = detune o
      /\ detuneAmount o' = detuneAmount o
      /\ stickyPitchBend o' = stickyPitchBend o
      /\ waveform o' = waveform o
      /\ voices o' = voices o).
Proof.
  intros Hnone.
  assert (Hstop : forall o2, activeNotes o2 !! note = None ->
                             stop note o2 = o2).
  { intros o2 Hn. unfold stop, get_stop. rewrite Hn.
    destruct (sustainActive o2); [| reflexivity].
    rewrite bool_decide_eq_false_2; [reflexivity |].
    intros [r Hr]. discriminate. }
  split; [apply Hstop, Hnone |].
  assert (Hoff : __onNoteOff note o = set_isNoteOn false o)
    by (apply Hstop, Hnone).
  split; [exact Hoff |]. cbv zeta. rewrite Hoff. done.
Qed.

(** ** The end of an oscillator *)


(** ** Frequencies *)

(** What ECMAScript fixes of [base ** exponent]: it is 1 when the exponent
    is zero. *)
Hypothesis pow_zero : forall base, pow base 0%float = 1%float.

(** C4: the oscillator [start] creates for a note has the frequency
    [2 ** ((note - 69) / 12) * 440], and for note 69 that is exactly
    440. *)
Theorem frequency_of_note :
  (forall note velocity o,
      let o' := start pow note velocity o in
      exists v,
        activeNotes o' !! note = Some (length (voices o))
        /\ voices o' !! length (voices o) = Some v
        /\ osc_frequency (oscillator v)
           = (pow 2 ((Z_to_float note - 69) / 12) * 440)%float)
  /\ noteToFrequency pow 69 = 440%float.
Proof.
  split.
  - intros note velocity o o'. subst o'. rewrite start_eq.
    exists (new_voice pow note velocity o). simpl.
    split; [apply lookup_insert_eq |]. split; [| reflexivity].
    rewrite <- (length_voices_get_stop o note).
    apply list_lookup_middle. reflexivity.
  - unfold noteToFrequency.
    replace ((Z_to_float 69 - 69) / 12)%float with 0%float
      by (vm_compute; reflexivity).
    rewrite pow_zero. vm_compute. reflexivity.
Qed.

End BaseOscillatorProperties.

(** * Concrete runs *)

Lemma pow_sample_zero (base : float) : pow_sample base 0%float = 1%float.
Proof. reflexivity. Qed.

(** The end of a voice on two runs.  Note 60 is pressed and released; when
    the engine reports the end of voice 0, the note is in neither collection
    and the voice is released.  With the pedal down and the note pressed
    twice, the end of voice 0 is reported while voice 1 sounds: the entry
    of voice 1 and the sustained note stay. *)
Example ended_after_release :
  (exists o o',
      run pow_sample [NoteOn 60 None; NoteOff 60] new_BaseOscillator = Some o
      /\ handle pow_sample (Ended 0) o = Some o'
      /\ activeNotes o' !! 60 = None
      /\ set_has 60 (sustainedNotes o') = false
      /\ sounding <$> voices o' !! 0%nat = Some false
      /\ osc_connected <$> (oscillator <$> voices o' !! 0%nat) = Some false
      /\ gain_connected <$> (gain <$> voices o' !! 0%nat) = Some false)
  /\ (exists o o',
        run pow_sample [SustainOn; NoteOn 60 None; NoteOn 60 None; NoteOff 60]
            new_BaseOscillator = Some o
        /\ handle pow_sample (Ended 0) o = Some o'
        /\ osc_connected <$> (oscillator <$> voices o' !! 0%nat) = Some false
        /\ activeNotes o' !! 60 = Some 1%nat
        /\ sounding <$> voices o' !! 1%nat = Some true
        /\ set_has 60 (sustainedNotes o') = true).
Proof.
  split.
  - do 2 eexists. split; [reflexivity |]. split; [reflexivity |]. evaluate.
  - do 2 eexists. split; [reflexivity |]. split; [reflexivity |]. evaluate.
Qed.

(** A run through the waveform boxes and the sticky toggle.  Each voice
    keeps the waveform it was started with; with sticky pitch bend the
    release of the fader leaves the bend, and switching it off again, with
    the fader listening, takes the bend back on every active voice. *)
Example waveform_and_sticky_run :
  exists o1 o2,
    run pow_sample
        [WaveformInput (Some "square"); NoteOn 60 None;
         WaveformInput (Some "triangle-2"); NoteOn 62 None;
         StickyToggle (Some true) None; DetuneInput (Some 0.5%float);
         DetuneStop true]
        new_BaseOscillator = Some o1
    /\ handle pow_sample (StickyToggle (Some false) (Some true)) o1 = Some o2
    /\ waveform o1 = triangle
    /\ osc_type <$> (oscillator <$> voices o1 !! 0%nat) = Some square
    /\ osc_type <$> (oscillator <$> voices o1 !! 1%nat) = Some triangle
    /\ stickyPitchBend o1 = true
    /\ detune o1 = 100%float
    /\ osc_detune <$> (oscillator <$> voices o1 !! 0%nat) = Some 100%float
    /\ osc_detune <$> (oscillator <$> voices o1 !! 1%nat) = Some 100%float
    /\ stickyPitchBend o2 = false
    /\ detune o2 = 0%float
    /\ osc_detune <$> (oscillator <$> voices o2 !! 0%nat) = Some 0%float
    /\ osc_detune <$> (oscillator <$> voices o2 !! 1%nat) = Some 0%float
    /\ osc_type <$> (oscillator <$> voices o2 !! 0%nat) = Some square.
Proof.
  do 2 eexists. split; [reflexivity |]. split; [reflexivity |]. evaluate.
Qed.

(** [frequency_of_note] at the sample exponentiation. *)
Lemma frequency_of_note_witness :
  (forall base, pow_sample base 0%float = 1%float)
  /\ noteToFrequency pow_sample 69 = 440%float.
Proof.
  split.
  - exact pow_sample_zero.
  - exact (proj2 (frequency_of_note pow_sample pow_sample_zero)).
Defined.

(** [unsupported_status_dropped] at 0x7F, below the range, and at 0xF8, a
    system message above it. *)
Lemma unsupported_status_dropped_witness :
  (byte_to_Z x7f < 0x80 \/ 0xF0 <= byte_to_Z x7f)
  /\ getEventForData [x7f; x3c; x40] = None
  /\ (byte_to_Z xf8 < 0x80 \/ 0xF0 <= byte_to_Z xf8)
  /\ getEventForData [xf8; x00; x00] = None.
Proof.
  assert (Hlow : byte_to_Z x7f < 0x80 \/ 0xF0 <= byte_to_Z x7f)
    by (left; reflexivity).
  assert (Hhigh : byte_to_Z xf8 < 0x80 \/ 0xF0 <= byte_to_Z xf8)
    by (right; discriminate).
  split; [exact Hlow |].
  split; [exact (unsupported_status_dropped x7f x3c x40 Hlow) |].
  split; [exact Hhigh |].
  exact (unsupported_status_dropped xf8 x00 x00 Hhigh).
Defined.

(** [noteOff_inactive_noop] at a new oscillator with the pedal down. *)
Lemma noteOff_inactive_noop_witness :
  let o := set_sustainActive true new_BaseOscillator in
  activeNotes o !! 60 = None
  /\ stop 60 o = o
  /\ __onNoteOff 60 o = set_isNoteOn false o.
Proof.
  assert (Hnone : activeNotes (set_sustainActive true new_BaseOscillator) !! 60
                  = None) by reflexivity.
  pose proof (noteOff_inactive_noop 60 _ Hnone) as (Hstop & Hoff & _).
  split; [exact Hnone |]. split; [exact Hstop | exact Hoff].
Defined.

(** * Further properties of the decoder *)

(** Rewrites the tests of the command of a status byte whose range is among
    the hypotheses. *)
Ltac decode_command :=
  repeat match goal with
         | |- context [?d - Z.rem ?d NUM_MIDI_CHANNELS =? ?c] =>
             first [ rewrite (eqb_command d c true) by status_arith
                   | rewrite (eqb_command d c false) by status_arith ]
         end.

Lemma truthy_data_byte (value : byte) :
  truthy (Z_to_float (byte_to_Z value)) = negb (Byte.eqb value x00).
Proof.
  pose (P := fun b : byte =>
    Bool.eqb (truthy (Z_to_float (byte_to_Z b))) (negb (Byte.eqb b x00))).
  apply Bool.eqb_prop. change (P value = true).
  apply forall_bytes. vm_compute. reflexivity.
Qed.

Lemma byte_eqb_false (b c : byte) : Byte.eqb b c = false <-> b <> c.
Proof.
  split.
  - apply Byte.eqb_false.
  - intros Hne. destruct (Byte.eqb b c) eqn:E; [| reflexivity].
    apply Byte.byte_dec_bl in E. contradiction.
Qed.

Lemma byte_to_Z_inj (b c : byte) : byte_to_Z b = byte_to_Z c -> b = c.
Proof.
  unfold byte_to_Z. intros Heq.
  assert (Hn : Byte.to_N b = Byte.to_N c) by lia.
  pose proof (Byte.of_to_N b) as Hb. rewrite Hn, Byte.of_to_N in Hb.
  congruence.
Qed.

(** The decoder on a message that starts with a status byte of the supported
    range, whatever its length. *)
Lemma getEventForData_cons (status : byte) (rest : list byte) :
  0x80 <= byte_to_Z status < 0xF0 ->
  getEventForData (status :: rest)
  = let data0 := byte_to_Z status in
    let channel := Z.rem data0 NUM_MIDI_CHANNELS in
    let command := data0 - channel in
    let data1 := byte_to_Z <$> rest !! 0%nat in
    let data2 := byte_to_Z <$> rest !! 1%nat in
    if (command =? MIDICommand.NOTE_ON) || (command =? MIDICommand.NOTE_OFF)
    then
      let velocity := (ToNumber data2 / 0xff)%float in
      if (command =? MIDICommand.NOTE_ON) && truthy velocity
      then Some (noteOn channel data1 velocity)
      else Some (noteOff channel data1)
    else if command =? MIDICommand.PITCH_WHEEL
    then
      Some (pitchWheel
              ((ToNumber data1 + Z_to_float (shl32 (ToInt32 data2) 8))
               / 0xffff)%float)
    else if command =? MIDICommand.CONTROL_CHANGE
    then
      if bool_decide (data1 = Some MIDIControlChange.MODWHEEL)
      then Some (modWheel (ToNumber data2 / 0xff)%float)
      else if bool_decide (data1 = Some MIDIControlChange.SUSTAIN)
      then
        if truthy (ToNumber data2)
        then Some (sustainOn channel)
        else Some (sustainOff channel)
      else None
    else None.
Proof.
  intros Hrange. unfold getEventForData, element.
  change ((status :: rest) !! 0%nat) with (Some status).
  change ((status :: rest) !! 1%nat) with (rest !! 0%nat).
  change ((status :: rest) !! 2%nat) with (rest !! 1%nat).
  cbn [fmap option_fmap option_map].
  unfold MIDICommand.NOTE_OFF at 1.
  unfold MIDICommand.PITCH_WHEEL at 1. unfold NUM_MIDI_CHANNELS at 1.
  destruct (Z.ltb_spec (byte_to_Z status) 128) as [Hlt | _]; [lia |].
  destruct (Z.geb_spec (byte_to_Z status) (224 + 16)) as [Hge | _]; [lia |].
  reflexivity.
Qed.


Lemma getEventForData_unsupported (status : byte) (rest : list byte) :
  byte_to_Z status < 0x80 \/ 0xF0 <= byte_to_Z status ->
  getEventForData (status :: rest) = None.
Proof.
  intros Hout. unfold getEventForData, element.
  change ((status :: rest) !! 0%nat) with (Some status).
  cbn [fmap option_fmap option_map].
  unfold MIDICommand.NOTE_OFF at 1.
  unfold MIDICommand.PITCH_WHEEL at 1. unfold NUM_MIDI_CHANNELS at 1.
  destruct (Z.ltb_spec (byte_to_Z status) 128) as [_ | Hge]; [reflexivity |].
  destruct (Z.geb_spec (byte_to_Z status) (224 + 16)) as [_ | Hlt];
    [reflexivity | lia].
Qed.

(** The seven groups of sixteen status bytes of the supported range. *)
Lemma status_groups (s : Z) :
  0x80 <= s < 0xF0 ->
  0x80 <= s <= 0x8F \/ 0x90 <= s <= 0x9F \/ 0xA0 <= s <= 0xAF
  \/ 0xB0 <= s <= 0xBF \/ 0xC0 <= s <= 0xCF \/ 0xD0 <= s <= 0xDF
  \/ 0xE0 <= s <= 0xEF.
Proof. lia. Qed.

(** X1: a Control Change message for control 1 decodes to [modWheel] with
    the value byte divided by 255, a value between 0 and 1 that is 0 only
    for byte 0 and 1 only for byte 255. *)
Theorem mod_wheel_value :
  (forall status value : byte,
      0xB0 <= byte_to_Z status <= 0xBF ->
      getEventForData [status; x01; value]
      = Some (modWheel (Z_to_float (byte_to_Z value) / 0xff)%float))
  /\ (forall value : byte,
        let v := (Z_to_float (byte_to_Z value) / 0xff)%float in
        PrimFloat.leb 0 v = true /\ PrimFloat.leb v 1 = true
        /\ PrimFloat.eqb v 0 = Byte.eqb value x00
        /\ PrimFloat.eqb v 1 = Byte.eqb value xff).
Proof.
  split.
  - intros status value Hs. pose proof (byte_to_Z_range status).
    rewrite getEventForData_cons by lia. cbv zeta. decode_command.
    reflexivity.
  - intros value.
    pose (P := fun b : byte =>
      let v := (Z_to_float (byte_to_Z b) / 0xff)%float in
      PrimFloat.leb 0 v && PrimFloat.leb v 1
      && Bool.eqb (PrimFloat.eqb v 0) (Byte.eqb b x00)
      && Bool.eqb (PrimFloat.eqb v 1) (Byte.eqb b xff)).
    assert (HP : P value = true)
      by (apply forall_bytes; vm_compute; reflexivity).
    unfold P in HP. cbv zeta in HP.
    repeat (apply andb_true_iff in HP as [HP ?]).
    repeat split; try assumption; apply Bool.eqb_prop; assumption.
Qed.

(** X2: a Control Change message for control 0x40 decodes to [sustainOff]
    when the value byte is 0 and to [sustainOn] for every other value byte,
    on the channel of the status byte. *)
Theorem sustain_pedal_threshold (status value : byte) :
  0xB0 <= byte_to_Z status <= 0xBF ->
  getEventForData [status; x40; value]
  = Some (if Byte.eqb value x00
          then sustainOff (byte_to_Z status - 0xB0)
          else sustainOn (byte_to_Z status - 0xB0)).
Proof.
  intros Hs. pose proof (byte_to_Z_range status).
  rewrite getEventForData_cons by lia. cbv zeta. decode_command.
  rewrite (channel_of_status _ 0xB0) by status_arith.
  cbn [lookup list_lookup fmap option_fmap option_map ToNumber].
  rewrite truthy_data_byte.
  destruct (Byte.eqb value x00); reflexivity.
Qed.

(** X3: a three-byte message decodes to no event exactly when its status
    byte is outside 0x80..0xEF, or is one of 0xA0..0xAF or 0xC0..0xDF, or is
    a Control Change for a control other than 1 and 0x40. *)
Theorem decode_nothing_iff (status data1 data2 : byte) :
  getEventForData [status; data1; data2] = None
  <-> byte_to_Z status < 0x80 \/ 0xF0 <= byte_to_Z status
      \/ 0xA0 <= byte_to_Z status <= 0xAF
      \/ 0xC0 <= byte_to_Z status <= 0xDF
      \/ (0xB0 <= byte_to_Z status <= 0xBF
          /\ data1 <> x01 /\ data1 <> x40).
Proof.
  pose proof (byte_to_Z_range status) as Hb.
  destruct (Z_lt_dec (byte_to_Z status) 0x80) as [Hlow | Hlow].
  { rewrite getEventForData_unsupported by lia. split; [lia | reflexivity]. }
  destruct (Z_le_dec 0xF0 (byte_to_Z status)) as [Hhigh | Hhigh].
  { rewrite getEventForData_unsupported by lia. split; [lia | reflexivity]. }
  rewrite getEventForData_cons by lia. cbv zeta.
  cbn [lookup list_lookup fmap option_fmap option_map].
  destruct (status_groups (byte_to_Z status) ltac:(lia))
    as [H | [H | [H | [H | [H | [H | H]]]]]]; decode_command;
    cbn [orb andb].
  - split; [discriminate | lia].
  - split; [| lia]. destruct (truthy _); discriminate.
  - split; [lia | reflexivity].
  - unfold MIDIControlChange.MODWHEEL, MIDIControlChange.SUSTAIN.
    case_bool_decide as H1.
    { split; [discriminate |]. intros [? | [? | [? | [? | (_ & Hne & _)]]]];
        try lia.
      exfalso. apply Hne. apply byte_to_Z_inj. injection H1 as ->.
      reflexivity. }
    case_bool_decide as H40.
    { split; [destruct (truthy _); discriminate |].
      intros [? | [? | [? | [? | (_ & _ & Hne)]]]]; try lia.
      exfalso. apply Hne. apply byte_to_Z_inj. injection H40 as ->.
      reflexivity. }
    split; [| reflexivity]. intros _. do 4 right.
    split; [lia |]. split; intros ->; [apply H1 | apply H40]; reflexivity.
  - split; [lia | reflexivity].
  - split; [lia | reflexivity].
  - split; [discriminate | lia].
Qed.

Lemma truthy_undefined_velocity : truthy (ToNumber None / 0xff)%float = false.
Proof. vm_compute. reflexivity. Qed.

Lemma truthy_undefined : truthy (ToNumber None) = false.
Proof. vm_compute. reflexivity. Qed.

(** X4: messages shorter than three bytes.  An empty message decodes to
    nothing.  A Note-On or Note-Off status byte alone, or with a note only,
    decodes to [noteOff] (the missing velocity is not truthy), with the note
    undefined when it is missing.  A missing second data byte of a Pitch
    Wheel message counts as 0, and a missing value of the sustain control as
    pedal up.  So a message shorter than three bytes never decodes to
    [noteOn] or [sustainOn]; and bytes after the third are never read. *)
Theorem truncated_message :
  getEventForData [] = None
  /\ (forall status : byte,
        0x80 <= byte_to_Z status <= 0x9F ->
        getEventForData [status]
        = Some (noteOff (Z.rem (byte_to_Z status) 16) None)
        /\ forall note : byte,
             getEventForData [status; note]
             = Some (noteOff (Z.rem (byte_to_Z status) 16)
                             (Some (byte_to_Z note))))
  /\ (forall status : byte,
        0xB0 <= byte_to_Z status <= 0xBF ->
        getEventForData [status] = None
        /\ getEventForData [status; x40]
           = Some (sustainOff (byte_to_Z status - 0xB0))
        /\ getEventForData [status; x01] = Some (modWheel nan))
  /\ (forall status : byte,
        0xE0 <= byte_to_Z status <= 0xEF ->
        getEventForData [status] = Some (pitchWheel nan)
        /\ forall lsb : byte,
             getEventForData [status; lsb]
             = getEventForData [status; lsb; x00])
  /\ (forall data : list byte,
        (length data < 3)%nat ->
        is_noteOn (getEventForData data) = false
        /\ is_sustainOn (getEventForData data) = false)
  /\ (forall (b0 b1 b2 : byte) (rest : list byte),
        getEventForData (b0 :: b1 :: b2 :: rest)
        = getEventForData [b0; b1; b2]).
Proof.
  split; [reflexivity |]. split; [| split; [| split; [| split]]].
  - intros status Hs. pose proof (byte_to_Z_range status).
    destruct (Z_le_dec (byte_to_Z status) 0x8F).
    + split; [| intros note]; rewrite getEventForData_cons by lia;
        cbv zeta; decode_command; reflexivity.
    + split; [| intros note]; rewrite getEventForData_cons by lia;
        cbv zeta; decode_command;
        cbn [lookup list_lookup fmap option_fmap option_map orb andb];
        rewrite truthy_undefined_velocity; reflexivity.
  - intros status Hs. pose proof (byte_to_Z_range status).
    split; [| split]; rewrite getEventForData_cons by lia;
      cbv zeta; decode_command.
    + reflexivity.
    + rewrite (channel_of_status _ 0xB0) by status_arith. reflexivity.
    + reflexivity.
  - intros status Hs. pose proof (byte_to_Z_range status).
    split; [| intros lsb]; rewrite !getEventForData_cons by lia;
      cbv zeta; decode_command; reflexivity.
  - intros data Hlen.
    destruct data as [| status rest]; [split; reflexivity |].
    pose proof (byte_to_Z_range status) as Hb.
    destruct (Z_lt_dec (byte_to_Z status) 0x80) as [Hlow | Hlow].
    { rewrite getEventForData_unsupported by lia. split; reflexivity. }
    destruct (Z_le_dec 0xF0 (byte_to_Z status)) as [Hhigh | Hhigh].
    { rewrite getEventForData_unsupported by lia. split; reflexivity. }
    rewrite getEventForData_cons by lia. cbv zeta.
    assert (Hno : rest !! 1%nat = None).
    { apply lookup_ge_None. simpl in Hlen. lia. }
    rewrite Hno. cbn [fmap option_fmap option_map].
    rewrite truthy_undefined_velocity, truthy_undefined, andb_false_r.
    split;
      repeat match goal with
             | |- context [if ?c then _ else _] => destruct c
             end; reflexivity.
  - intros b0 b1 b2 rest. reflexivity.
Qed.

Lemma seven_bit_bounds (value lsb msb : byte) :
  seven_bit value = true -> seven_bit lsb = true -> seven_bit msb = true ->
  PrimFloat.leb (Z_to_float (byte_to_Z value) / 0xff) (127 / 255) = true
  /\ PrimFloat.ltb (Z_to_float (byte_to_Z value) / 0xff) 0.5 = true
  /\ PrimFloat.leb (pitch_value lsb msb) (32639 / 65535) = true
  /\ PrimFloat.ltb (pitch_value lsb msb) 0.5 = true.
Proof.
  intros Hv Hl Hm.
  pose (P := fun b : byte =>
    implb (seven_bit b)
      (PrimFloat.leb (Z_to_float (byte_to_Z b) / 0xff) (127 / 255)
       && PrimFloat.ltb (Z_to_float (byte_to_Z b) / 0xff) 0.5)).
  pose (Q := fun b1 b2 : byte =>
    implb (seven_bit b1 && seven_bit b2)
      (PrimFloat.leb (pitch_value b1 b2) (32639 / 65535)
       && PrimFloat.ltb (pitch_value b1 b2) 0.5)).
  assert (HP : P value = true)
    by (apply forall_bytes; vm_compute; reflexivity).
  assert (HQ : Q lsb msb = true)
    by (apply forall_bytes2; vm_compute; reflexivity).
  unfold P in HP. unfold Q in HQ. rewrite Hv in HP. rewrite Hl, Hm in HQ.
  simpl in HP, HQ.
  apply andb_true_iff in HP as [HP1 HP2].
  apply andb_true_iff in HQ as [HQ1 HQ2].
  repeat split; assumption.
Qed.

(** X6: MIDI data bytes have seven bits, and the decoder divides by 255 and
    by 65535: for a message with such data bytes the velocity of a [noteOn]
    and the value of a [modWheel] are at most 127/255, and the value of a
    [pitchWheel] at most 32639/65535, all below 0.5. *)
Theorem seven_bit_values_below_half (status data1 data2 : byte) :
  seven_bit data1 = true -> seven_bit data2 = true ->
  match getEventForData [status; data1; data2] with
  | Some (noteOn _ _ value) | Some (modWheel value) =>
      PrimFloat.leb value (127 / 255) = true
      /\ PrimFloat.ltb value 0.5 = true
  | Some (pitchWheel value) =>
      PrimFloat.leb value (32639 / 65535) = true
      /\ PrimFloat.ltb value 0.5 = true
  | _ => True
  end.
Proof.
  intros H1 H2.
  destruct (seven_bit_bounds data2 data1 data2 H2 H1 H2)
    as (Hle & Hlt & Hple & Hplt).
  pose proof (byte_to_Z_range status) as Hb.
  destruct (Z_lt_dec (byte_to_Z status) 0x80) as [Hlow | Hlow].
  { rewrite getEventForData_unsupported by lia. exact I. }
  destruct (Z_le_dec 0xF0 (byte_to_Z status)) as [Hhigh | Hhigh].
  { rewrite getEventForData_unsupported by lia. exact I. }
  rewrite getEventForData_cons by lia. cbv zeta.
  cbn [lookup list_lookup fmap option_fmap option_map ToNumber ToInt32].
  destruct (status_groups (byte_to_Z status) ltac:(lia))
    as [H | [H | [H | [H | [H | [H | H]]]]]]; decode_command;
    cbn [orb andb]; try exact I.
  - destruct (truthy _); [split; assumption | exact I].
  - case_bool_decide; [split; assumption |].
    case_bool_decide; [| exact I]. destruct (truthy _); exact I.
  - rewrite shl8_float. split; assumption.
Qed.

(** X5: what an event says about the message it was decoded from, whatever
    the length of the message: the kind of the event fixes the group of the
    status byte, its channel is the low four bits of the status byte, its
    note is the second byte, and [noteOn] and [sustainOn] need a third byte
    that is not 0. *)
Theorem decoded_event_fields (data : list byte) (e : MIDIEvent) :
  getEventForData data = Some e ->
  exists status : byte,
    data !! 0%nat = Some status
    /\ match e with
       | noteOn channel note velocity =>
           0x90 <= byte_to_Z status <= 0x9F
           /\ channel = byte_to_Z status - 0x90
           /\ note = element data 1
           /\ exists value : byte,
                data !! 2%nat = Some value /\ value <> x00
                /\ velocity = (Z_to_float (byte_to_Z value) / 0xff)%float
       | noteOff channel note =>
           0x80 <= byte_to_Z status <= 0x9F
           /\ channel = byte_to_Z status mod 16
           /\ note = element data 1
           /\ (0x90 <= byte_to_Z status ->
               data !! 2%nat = None \/ data !! 2%nat = Some x00)
       | pitchWheel _ => 0xE0 <= byte_to_Z status <= 0xEF
       | modWheel value =>
           0xB0 <= byte_to_Z status <= 0xBF
           /\ data !! 1%nat = Some x01
           /\ value = (ToNumber (element data 2) / 0xff)%float
       | sustainOn channel =>
           0xB0 <= byte_to_Z status <= 0xBF
           /\ channel = byte_to_Z status - 0xB0
           /\ data !! 1%nat = Some x40
           /\ exists value : byte, data !! 2%nat = Some value /\ value <> x00
       | sustainOff channel =>
           0xB0 <= byte_to_Z status <= 0xBF
           /\ channel = byte_to_Z status - 0xB0
           /\ data !! 1%nat = Some x40
           /\ (data !! 2%nat = None \/ data !! 2%nat = Some x00)
       end.
Proof.
  intros Hev. destruct data as [| status rest]; [discriminate |].
  exists status. split; [reflexivity |].
  pose proof (byte_to_Z_range status) as Hb.
  destruct (Z_lt_dec (byte_to_Z status) 0x80) as [Hlow | Hlow].
  { rewrite getEventForData_unsupported in Hev by lia. discriminate. }
  destruct (Z_le_dec 0xF0 (byte_to_Z status)) as [Hhigh | Hhigh].
  { rewrite getEventForData_unsupported in Hev by lia. discriminate. }
  rewrite getEventForData_cons in Hev by lia. cbv zeta in Hev.
  unfold element.
  change ((status :: rest) !! 1%nat) with (rest !! 0%nat).
  change ((status :: rest) !! 2%nat) with (rest !! 1%nat).
  assert (Hvel : forall o : option byte,
             truthy (ToNumber (byte_to_Z <$> o) / 0xff)%float = true ->
             exists value, o = Some value /\ value <> x00).
  { intros [value |]; cbn [fmap option_fmap option_map ToNumber].
    - rewrite truthy_velocity. intros Hne. exists value.
      split; [reflexivity |]. apply byte_eqb_false, negb_true_iff, Hne.
    - intros Htr. vm_compute in Htr. discriminate. }
  assert (Hval : forall o : option byte,
             truthy (ToNumber (byte_to_Z <$> o)) = true ->
             exists value, o = Some value /\ value <> x00).
  { intros [value |]; cbn [fmap option_fmap option_map ToNumber].
    - rewrite truthy_data_byte. intros Hne. exists value.
      split; [reflexivity |]. apply byte_eqb_false, negb_true_iff, Hne.
    - intros Htr. vm_compute in Htr. discriminate. }
  assert (Hzero : forall (o : option byte) (t : bool),
             (t = true -> exists value, o = Some value /\ value <> x00) ->
             (forall value, o = Some value ->
                t = negb (Byte.eqb value x00)) ->
             t = false -> o = None \/ o = Some x00).
  { intros [value |] t _ Hspec Hf; [right | left; reflexivity].
    specialize (Hspec value eq_refl). rewrite Hf in Hspec.
    apply eq_sym, negb_false_iff, Byte.byte_dec_bl in Hspec.
    congruence. }
  revert Hev.
  destruct (status_groups (byte_to_Z status) ltac:(lia))
    as [H | [H | [H | [H | [H | [H | H]]]]]]; decode_command;
    cbn [orb andb]; try discriminate.
  - intros [= <-]. rewrite Z.rem_mod_nonneg by (unfold NUM_MIDI_CHANNELS; lia).
    split; [lia |]. split; [reflexivity |]. split; [reflexivity | lia].
  - destruct (truthy _) eqn:Htr; intros [= <-].
    + destruct (Hvel _ Htr) as (value & Hval2 & Hne).
      rewrite (channel_of_status _ 0x90) by status_arith.
      split; [lia |]. split; [reflexivity |]. split; [reflexivity |].
      exists value. rewrite Hval2. done.
    + rewrite Z.rem_mod_nonneg by (unfold NUM_MIDI_CHANNELS; lia).
      split; [lia |]. split; [reflexivity |]. split; [reflexivity |].
      intros _. apply (Hzero _ _ (Hvel _)); [| exact Htr].
      intros value ->. apply truthy_velocity.
  - unfold MIDIControlChange.MODWHEEL, MIDIControlChange.SUSTAIN.
    case_bool_decide as H1.
    { intros [= <-]. split; [lia |]. split; [| reflexivity].
      destruct (rest !! 0%nat) as [b |]; [| discriminate].
      simpl in H1. injection H1 as H1. f_equal. apply byte_to_Z_inj.
      rewrite H1. reflexivity. }
    case_bool_decide as H40; [| discriminate].
    assert (Hc : rest !! 0%nat = Some x40).
    { destruct (rest !! 0%nat) as [b |]; [| discriminate].
      simpl in H40. injection H40 as H40. f_equal. apply byte_to_Z_inj.
      rewrite H40. reflexivity. }
    rewrite (channel_of_status _ 0xB0) by status_arith.
    destruct (truthy _) eqn:Htr; intros [= <-].
    + split; [lia |]. split; [reflexivity |]. split; [exact Hc |].
      apply Hval, Htr.
    + split; [lia |]. split; [reflexivity |]. split; [exact Hc |].
      apply (Hzero _ _ (Hval _)); [| exact Htr].
      intros value ->. apply truthy_data_byte.
  - intros [= <-]. lia.
Qed.

(** [decoded_event_fields] at the Note-On message for note 60 with velocity
    byte 127. *)
Lemma decoded_event_fields_witness :
  getEventForData [x90; x3c; x7f]
  = Some (noteOn 0 (Some 60) (127 / 255)%float)
  /\ exists status : byte,
       [x90; x3c; x7f] !! 0%nat = Some status
       /\ 0x90 <= byte_to_Z status <= 0x9F.
Proof.
  assert (Hdec : getEventForData [x90; x3c; x7f]
                 = Some (noteOn 0 (Some 60) (127 / 255)%float))
    by (vm_compute; reflexivity).
  split; [exact Hdec |].
  destruct (decoded_event_fields _ _ Hdec) as (status & Hs & Hr & _).
  exists status. split; assumption.
Defined.

(** [sustain_pedal_threshold] at a half-pressed pedal on channel 3. *)
Lemma sustain_pedal_threshold_witness :
  0xB0 <= byte_to_Z xb3 <= 0xBF
  /\ getEventForData [xb3; x40; x01] = Some (sustainOn 3).
Proof.
  assert (Hs : 0xB0 <= byte_to_Z xb3 <= 0xBF)
    by (split; discriminate).
  split; [exact Hs |]. exact (sustain_pedal_threshold xb3 x01 Hs).
Defined.

(** [seven_bit_values_below_half] at the fastest Note-On that MIDI can
    send for note 60. *)
Lemma seven_bit_values_below_half_witness :
  seven_bit x3c = true /\ seven_bit x7f = true
  /\ getEventForData [x90; x3c; x7f]
     = Some (noteOn 0 (Some 60) (127 / 255)%float)
  /\ PrimFloat.ltb (127 / 255) 0.5 = true.
Proof.
  pose proof (seven_bit_values_below_half x90 x3c x7f eq_refl eq_refl)
    as Hbound.
  assert (Hdec : getEventForData [x90; x3c; x7f]
                 = Some (noteOn 0 (Some 60) (127 / 255)%float))
    by (vm_compute; reflexivity).
  rewrite Hdec in Hbound.
  split; [reflexivity |]. split; [reflexivity |].
  split; [exact Hdec | exact (proj2 Hbound)].
Defined.

(** * Further properties of the oscillator *)

Lemma voice_step_evolves (v v' : Voice) : voice_step v v' -> evolves v v'.
Proof.
  intros [| | d | Hst]; unfold evolves; simpl; repeat split; auto.
Qed.

Lemma evolves_trans (v1 v2 v3 : Voice) :
  evolves v1 v2 -> evolves v2 v3 -> evolves v1 v3.
Proof.
  unfold evolves.
  intros (? & ? & ? & ? & ? & ? & ?) (? & ? & ? & ? & ? & ? & ?).
  repeat split; try congruence; auto.
Qed.

Lemma voice_step_connected (v v' : Voice) :
  voice_step v v' -> connected_while_sounding v ->
  connected_while_sounding v'.
Proof.
  unfold connected_while_sounding, sounding.
  intros [| | d | Hst] Hc; simpl; auto; try discriminate.
  rewrite Hst. discriminate.
Qed.

(** [get(note)?.stop()] leaves every voice as it is, or stopped. *)
Lemma get_stop_voices (note : Z) (o : BaseOscillator) (r : nat) (v : Voice) :
  voices o !! r = Some v ->
  exists v', voices (get_stop note o) !! r = Some v' /\ voice_step v v'.
Proof.
  intros Hv. unfold get_stop, entry_stop.
  destruct (activeNotes o !! note) as [r0 |];
    [| exists v; split; [exact Hv | constructor]].
  destruct (voices o !! r0) as [v0 |] eqn:Hv0;
    [| exists v; split; [exact Hv | constructor]].
  simpl. destruct (decide (r0 = r)) as [-> | Hne].
  - rewrite list_lookup_insert_eq by (eapply lookup_lt_Some, Hv).
    exists (stop_oscillator v0). split; [reflexivity |].
    assert (v0 = v) by congruence. subst v0. constructor.
  - rewrite list_lookup_insert_ne by exact Hne.
    exists v. split; [exact Hv | constructor].
Qed.

(** The voice of another note is not touched. *)
Lemma get_stop_voices_other (note n : Z) (o : BaseOscillator) (r : nat) :
  consistent o -> activeNotes o !! n = Some r -> n <> note ->
  voices (get_stop note o) !! r = voices o !! r.
Proof.
  intros Hc Hn Hne. unfold get_stop.
  destruct (activeNotes o !! note) as [r0 |] eqn:Hr0; [| reflexivity].
  destruct (entry_stop_active o note r0 Hc Hr0) as (v0 & Hv0 & Hn0 & _ & ->).
  simpl. apply list_lookup_insert_ne.
  destruct (proj1 Hc _ _ Hn) as (v & Hv & Hvn & _). congruence.
Qed.

Lemma stop_voices (note : Z) (o : BaseOscillator) (r : nat) (v : Voice) :
  voices o !! r = Some v ->
  exists v', voices (stop note o) !! r = Some v' /\ voice_step v v'.
Proof.
  intros Hv. unfold stop. destruct (sustainActive o).
  - destruct (_ && _); exists v; split; try exact Hv; constructor.
  - apply get_stop_voices, Hv.
Qed.

Lemma detune_active_voices (o : BaseOscillator) (r : nat) (v : Voice) :
  voices o !! r = Some v ->
  exists v', voices (detune_active o) !! r = Some v' /\ voice_step v v'.
Proof.
  intros Hv. unfold detune_active. simpl. rewrite detune_entries_lookup, Hv.
  case_bool_decide.
  - exists (detune_oscillator (detune o) v). split; [reflexivity | constructor].
  - exists v. split; [reflexivity | constructor].
Qed.

Lemma detune_stop_voices (f : bool) (o : BaseOscillator) :
  (forall r v, voices o !! r = Some v ->
     exists v', voices (__onDetuneStop f o) !! r = Some v' /\ voice_step v v')
  /\ length (voices (__onDetuneStop f o)) = length (voices o).
Proof.
  unfold __onDetuneStop. split.
  - intros r v Hv. destruct f; simpl;
      [| exists v; split; [exact Hv | constructor]].
    destruct (stickyPitchBend o);
      [exists v; split; [exact Hv | constructor] |].
    apply (detune_active_voices (set_detune _ o)), Hv.
  - destruct f; simpl; [| reflexivity].
    destruct (stickyPitchBend o); [reflexivity |].
    rewrite length_detune_active. reflexivity.
Qed.

Section FurtherOscillatorProperties.

Variable pow : float -> float -> float.

(** What one event does to the store of voices: every voice takes one
    [voice_step], and only [noteOn] adds a voice, the one [start] creates. *)
Lemma handle_voices (e : Event) (o o' : BaseOscillator) :
  consistent o -> handle pow e o = Some o' ->
  (forall r v, voices o !! r = Some v ->
     exists v', voices o' !! r = Some v' /\ voice_step v v')
  /\ length (voices o') = (length (voices o) + notes_started [e])%nat
  /\ (forall note velocity, e = NoteOn note velocity ->
        voices o' !! length (voices o)
        = Some (new_voice pow note velocity o)).
Proof.
  intros Hc He.
  destruct e as [n0 velocity | n0 | | | fader | input | f | r0
                | target_id | checked mouseup];
    simpl in He; simpl notes_started.
  - injection He as <-. unfold __onNoteOn. rewrite start_eq.
    cbn [voices set_voices set_activeNotes set_isNoteOn].
    pose proof (length_voices_get_stop (set_isNoteOn true o) n0) as Hlen.
    cbn [voices set_isNoteOn] in Hlen.
    split; [| split].
    + intros r v Hv.
      destruct (get_stop_voices n0 (set_isNoteOn true o) r v Hv)
        as (v' & Hv' & Hstep).
      exists v'. split; [| exact Hstep].
      rewrite lookup_app_l by (eapply lookup_lt_Some, Hv'). exact Hv'.
    + rewrite length_app, Hlen. simpl. lia.
    + intros note vel [= <- <-]. rewrite <- Hlen.
      apply list_lookup_middle. reflexivity.
  - injection He as <-. unfold __onNoteOff.
    split; [| split; [| discriminate]].
    + intros r v Hv. apply (stop_voices n0 (set_isNoteOn false o)), Hv.
    + unfold stop. cbn [sustainActive set_isNoteOn].
      destruct (sustainActive o).
      * destruct (_ && _); simpl; lia.
      * rewrite length_voices_get_stop. simpl. lia.
  - injection He as <-. split; [| split; [simpl; lia | discriminate]].
    intros r v Hv. exists v. split; [exact Hv | constructor].
  - destruct (__onSustainOff_spec o Hc) as (o2 & Hrun & Hfl & _).
    rewrite Hrun in He. injection He as <-.
    destruct Hfl as (_ & _ & _ & _ & _ & _ & _ & _ & _ & Hv').
    split; [| split; [| discriminate]].
    + intros r v Hv. rewrite Hv', Hv. simpl.
      destruct (set_has _ _); eexists; (split; [reflexivity | constructor]).
    + assert (Hlt : forall r, (r < length (voices o2))%nat
                              <-> (r < length (voices o))%nat).
      { intros r. rewrite <- !lookup_lt_is_Some, Hv'.
        rewrite fmap_is_Some. reflexivity. }
      destruct (Nat.lt_trichotomy (length (voices o2)) (length (voices o)))
        as [Hlt' | [Heq | Hgt]]; [| lia |].
      * apply Hlt in Hlt'. lia.
      * apply Hlt in Hgt. lia.
  - injection He as <-. split; [| split; [| discriminate]].
    + intros r v Hv. destruct fader as [x |];
        [| exists v; split; [exact Hv | constructor]].
      apply (detune_active_voices (set_detune _ o)), Hv.
    + destruct fader as [x |]; [| simpl; lia]. simpl __onDetune.
      rewrite length_detune_active. simpl. lia.
  - injection He as <-. split; [| split; [| discriminate]].
    + intros r v Hv. exists v. destruct input; (split; [exact Hv | constructor]).
    + destruct input; simpl; lia.
  - injection He as <-. unfold __onDetuneStop.
    split; [| split; [| discriminate]].
    + intros r v Hv. destruct f; simpl;
        [| exists v; split; [exact Hv | constructor]].
      destruct (stickyPitchBend o);
        [exists v; split; [exact Hv | constructor] |].
      apply (detune_active_voices (set_detune _ o)), Hv.
    + destruct f; simpl; [| lia].
      destruct (stickyPitchBend o); [lia |].
      rewrite length_detune_active. simpl. lia.
  - injection He as <-. unfold dispatch_ended.
    split; [| split; [| discriminate]].
    + intros r v Hv.
      destruct (voices o !! r0) as [v0 |] eqn:Hv0;
        [| exists v; split; [exact Hv | constructor]].
      destruct (osc_stopped (oscillator v0)) eqn:Hst;
        [| exists v; split; [exact Hv | constructor]].
      unfold onended. simpl. destruct (decide (r0 = r)) as [-> | Hne].
      * rewrite list_lookup_alter_eq, Hv. simpl.
        exists (disconnect_nodes v). split; [reflexivity |].
        constructor. congruence.
      * rewrite list_lookup_alter_ne by exact Hne.
        exists v. split; [exact Hv | constructor].
    + destruct (voices o !! r0) as [v0 |]; [| lia].
      destruct (osc_stopped (oscillator v0)); [| lia].
      unfold onended. simpl. rewrite length_alter. lia.
  - injection He as <-. unfold __onWaveform.
    split; [| split; [| discriminate]].
    + intros r v Hv. exists v. split; [| constructor].
      destruct target_id as [id |]; [| exact Hv].
      destruct (negb _); [exact Hv |].
      destruct (waveform_of_key _); exact Hv.
    + destruct target_id as [id |]; [| lia].
      destruct (negb _); [lia |].
      destruct (waveform_of_key _); simpl; lia.
  - injection He as <-. unfold __onStickyToggle.
    split; [| split; [| discriminate]].
    + intros r v Hv.
      destruct checked as [b |];
        [| exists v; split; [exact Hv | constructor]].
      destruct mouseup as [f |];
        [| exists v; split; [exact Hv | constructor]].
      apply (proj1 (detune_stop_voices f (set_stickyPitchBend b o))), Hv.
    + destruct checked as [b |]; [| lia].
      destruct mouseup as [f |]; [| simpl; lia].
      rewrite (proj2 (detune_stop_voices f (set_stickyPitchBend b o))).
      simpl. lia.
Qed.

Lemma run_app (es1 es2 : list Event) (o : BaseOscillator) :
  run pow (es1 ++ es2) o
  = match run pow es1 o with
    | Some o1 => run pow es2 o1
    | None => None
    end.
Proof.
  revert o. induction es1 as [| e es1 IH]; intros o; simpl; [reflexivity |].
  destruct (handle pow e o); [apply IH | reflexivity].
Qed.

Lemma notes_started_cons (e : Event) (es : list Event) :
  notes_started (e :: es) = (notes_started [e] + notes_started es)%nat.
Proof. destruct e; reflexivity. Qed.

(** A run from a consistent oscillator: it ends in a consistent one, every
    voice it found has evolved, and it has added one voice for each
    [noteOn]. *)
Lemma run_voices (es : list Event) :
  forall o, consistent o ->
    exists o',
      run pow es o = Some o' /\ consistent o'
      /\ (forall r v, voices o !! r = Some v ->
            exists v', voices o' !! r = Some v' /\ evolves v v')
      /\ length (voices o') = (length (voices o) + notes_started es)%nat.
Proof.
  induction es as [| e es IH]; intros o Hc.
  - exists o. split; [reflexivity |]. split; [exact Hc |]. split.
    + intros r v Hv. exists v. split; [exact Hv |].
      apply voice_step_evolves. constructor.
    + simpl. lia.
  - destruct (consistent_handle pow e o Hc) as (o1 & He & Hc1).
    destruct (handle_voices e o o1 Hc He) as (Hstep & Hlen & _).
    destruct (IH o1 Hc1) as (o' & Hrun & Hc' & Hev & Hlen').
    exists o'. cbn [run]. rewrite He. split; [exact Hrun |].
    split; [exact Hc' |]. split.
    + intros r v Hv. destruct (Hstep r v Hv) as (v1 & Hv1 & Hs1).
      destruct (Hev r v1 Hv1) as (v' & Hv' & He').
      exists v'. split; [exact Hv' |].
      eapply evolves_trans; [apply voice_step_evolves |]; eassumption.
    + rewrite Hlen', Hlen, (notes_started_cons e es). lia.
Qed.

(** X8: later events never change the note, frequency, type or gain of a
    voice, never restart a stopped oscillator and never reconnect a node:
    the voices after a run evolve into the voices after any longer run. *)
Theorem voices_only_evolve (es1 es2 : list Event) :
  exists o1 o2,
    run pow es1 new_BaseOscillator = Some o1
    /\ run pow (es1 ++ es2) new_BaseOscillator = Some o2
    /\ forall r v, voices o1 !! r = Some v ->
         exists v', voices o2 !! r = Some v' /\ evolves v v'.
Proof.
  destruct (run_voices es1 _ consistent_new) as (o1 & Hrun1 & Hc1 & _ & _).
  destruct (run_voices es2 o1 Hc1) as (o2 & Hrun2 & _ & Hev & _).
  exists o1, o2. split; [exact Hrun1 |]. split; [| exact Hev].
  rewrite run_app, Hrun1. exact Hrun2.
Qed.

(** X10: a run allocates exactly one voice for each [noteOn] event and none
    for any other event; no event removes a voice from the store. *)
Theorem one_voice_per_noteOn (es : list Event) :
  exists o,
    run pow es new_BaseOscillator = Some o
    /\ length (voices o) = notes_started es
    /\ forall e, exists o',
         handle pow e o = Some o'
         /\ length (voices o')
            = (length (voices o) + notes_started [e])%nat.
Proof.
  destruct (run_voices es _ consistent_new) as (o & Hrun & Hc & _ & Hlen).
  exists o. split; [exact Hrun |]. split; [exact Hlen |].
  intros e. destruct (consistent_handle pow e o Hc) as (o' & He & _).
  exists o'. split; [exact He |]. apply (handle_voices e o o' Hc He).
Qed.

Lemma run_voice_sane (es : list Event) :
  forall o, consistent o ->
    (forall r v, voices o !! r = Some v -> voice_sane pow v) ->
    exists o',
      run pow es o = Some o'
      /\ forall r v, voices o' !! r = Some v -> voice_sane pow v.
Proof.
  induction es as [| e es IH]; intros o Hc Hsane.
  - exists o. split; [reflexivity | exact Hsane].
  - destruct (consistent_handle pow e o Hc) as (o1 & He & Hc1).
    destruct (handle_voices e o o1 Hc He) as (Hstep & Hlen & Hnew).
    simpl. rewrite He. apply (IH o1 Hc1).
    intros r v1 Hv1.
    destruct (voices o !! r) as [v |] eqn:Hv.
    + destruct (Hstep r v Hv) as (v' & Hv' & Hs).
      assert (v' = v1) by congruence. subst v'.
      destruct (Hsane r v Hv) as [Hf Hconn]. split.
      * destruct (voice_step_evolves _ _ Hs) as (Hn & Hfr & _).
        rewrite Hfr, Hn. exact Hf.
      * eapply voice_step_connected; eassumption.
    + apply lookup_ge_None in Hv.
      pose proof (lookup_lt_Some _ _ _ Hv1) as Hlt.
      destruct e as [n0 velocity | | | | | | | | |]; simpl in Hlen; try lia.
      assert (r = length (voices o)) by lia. subst r.
      rewrite (Hnew n0 velocity eq_refl) in Hv1. injection Hv1 as <-.
      split; [reflexivity |]. intros _. split; reflexivity.
Qed.

(** X9: every voice a run has ever created keeps the frequency
    [noteToFrequency] gives its note, and its nodes stay connected for as
    long as its oscillator has not been stopped. *)
Theorem voice_frequency_invariant (es : list Event) :
  exists o,
    run pow es new_BaseOscillator = Some o
    /\ forall r v, voices o !! r = Some v ->
         osc_frequency (oscillator v)
         = (pow 2 ((Z_to_float (stop_note v) - 69) / 12) * 440)%float
         /\ (osc_stopped (oscillator v) = false ->
             osc_connected (oscillator v) = true
             /\ gain_connected (gain v) = true).
Proof.
  destruct (run_voice_sane es _ consistent_new) as (o & Hrun & Hsane).
  { intros r v Hv. cbn [voices new_BaseOscillator] in Hv.
    rewrite lookup_nil in Hv. discriminate. }
  exists o. split; [exact Hrun |].
  intros r v Hv. destruct (Hsane r v Hv) as [Hf Hconn].
  split; [exact Hf |]. intros Hst. apply Hconn.
  unfold sounding. rewrite Hst. reflexivity.
Qed.

(** ** Detune *)

Lemma tuned_same (o o' : BaseOscillator) :
  activeNotes o' = activeNotes o -> voices o' = voices o ->
  detune o' = detune o -> tuned o -> tuned o'.
Proof. unfold tuned. intros -> -> ->. exact id. Qed.

Lemma tuned_detune_active (d : float) (o : BaseOscillator) :
  tuned (detune_active (set_detune d o)).
Proof.
  intros note r v Hr Hv.
  rewrite (detune_active_entry (set_detune d o) note r Hr) in Hv.
  cbn [voices set_detune] in Hv.
  destruct (voices o !! r) as [v0 |]; [| discriminate].
  injection Hv as <-. reflexivity.
Qed.

Lemma tuned_get_stop (note : Z) (o : BaseOscillator) :
  consistent o -> tuned o -> tuned (get_stop note o).
Proof.
  intros Hc Ht n r v Hr Hv.
  destruct (get_stop_spec note o Hc) as (Hnone & Hother & _).
  destruct (decide (n = note)) as [-> | Hne]; [congruence |].
  rewrite (Hother n Hne) in Hr.
  rewrite (get_stop_voices_other note n o r Hc Hr Hne) in Hv.
  destruct (get_stop_scalars note o) as (-> & _).
  eapply Ht; eassumption.
Qed.

Lemma tuned_detune_stop (f : bool) (o : BaseOscillator) :
  tuned o -> tuned (__onDetuneStop f o).
Proof.
  intros Ht. unfold __onDetuneStop.
  destruct f; simpl; [| exact Ht].
  destruct (stickyPitchBend o); [exact Ht |]. apply tuned_detune_active.
Qed.

Lemma tuned_handle (e : Event) (o o' : BaseOscillator) :
  consistent o -> tuned o -> handle pow e o = Some o' -> tuned o'.
Proof.
  intros Hc Ht He.
  destruct e as [n0 velocity | n0 | | | fader | input | f | r0
                | target_id | checked mouseup];
    simpl in He.
  - injection He as <-. unfold __onNoteOn.
    assert (Hc2 : consistent (set_isNoteOn true o))
      by (eapply consistent_scalar; [..| exact Hc]; reflexivity).
    assert (Ht2 : tuned (get_stop n0 (set_isNoteOn true o))).
    { apply tuned_get_stop; [exact Hc2 |].
      eapply tuned_same; [..| exact Ht]; reflexivity. }
    pose proof (consistent_get_stop _ n0 Hc2) as Hc3.
    pose proof (get_stop_inactive _ n0 Hc2) as Hnone.
    pose proof (length_voices_get_stop (set_isNoteOn true o) n0) as Hlen.
    destruct (get_stop_scalars n0 (set_isNoteOn true o)) as (Hd & _).
    rewrite start_eq. intros n r v Hr Hv.
    cbn [activeNotes voices detune set_activeNotes set_voices] in Hr, Hv |- *.
    apply lookup_insert_Some in Hr as [[<- <-] | [Hne Hr]].
    + rewrite <- Hlen, list_lookup_middle in Hv by reflexivity.
      injection Hv as <-. rewrite Hd. reflexivity.
    + destruct (proj1 Hc3 _ _ Hr) as (v0 & Hv0 & _).
      rewrite lookup_app_l in Hv by (eapply lookup_lt_Some, Hv0).
      eapply Ht2; eassumption.
  - injection He as <-. unfold __onNoteOff, stop.
    cbn [sustainActive set_isNoteOn]. destruct (sustainActive o).
    + destruct (_ && _); (eapply tuned_same; [..| exact Ht]; reflexivity).
    + apply tuned_get_stop.
      * eapply consistent_scalar; [..| exact Hc]; reflexivity.
      * eapply tuned_same; [..| exact Ht]; reflexivity.
  - injection He as <-. eapply tuned_same; [..| exact Ht]; reflexivity.
  - destruct (__onSustainOff_spec o Hc) as (o2 & Hrun & Hfl & _).
    rewrite Hrun in He. injection He as <-.
    destruct Hfl as (_ & _ & Hd & _ & _ & _ & _ & _ & Hact' & Hv').
    intros n r v Hr Hv. rewrite Hact' in Hr.
    destruct (set_has n (sustainedNotes o)) eqn:Hp; [discriminate |].
    destruct (proj1 Hc _ _ Hr) as (v0 & Hv0 & Hn0 & _).
    rewrite Hv', Hv0 in Hv. simpl in Hv. rewrite Hn0, Hp in Hv.
    injection Hv as <-. rewrite Hd. eapply Ht; eassumption.
  - injection He as <-. destruct fader as [x |]; [| exact Ht].
    apply tuned_detune_active.
  - injection He as <-. destruct input as [x |]; [| exact Ht].
    eapply tuned_same; [..| exact Ht]; reflexivity.
  - injection He as <-. unfold __onDetuneStop.
    destruct f; simpl; [| exact Ht].
    destruct (stickyPitchBend o); [exact Ht |]. apply tuned_detune_active.
  - injection He as <-. unfold dispatch_ended.
    destruct (voices o !! r0) as [v0 |] eqn:Hv0; [| exact Ht].
    destruct (osc_stopped (oscillator v0)); [| exact Ht].
    intros n r v Hr Hv. unfold onended in *.
    cbn [activeNotes voices detune set_voices] in Hr, Hv |- *.
    destruct (decide (r0 = r)) as [-> | Hne].
    + rewrite list_lookup_alter_eq, Hv0 in Hv. injection Hv as <-.
      simpl. eapply Ht; eassumption.
    + rewrite list_lookup_alter_ne in Hv by exact Hne.
      eapply Ht; eassumption.
  - injection He as <-. unfold __onWaveform.
    destruct target_id as [id |]; [| exact Ht].
    destruct (negb _); [exact Ht |].
    destruct (waveform_of_key _); [| exact Ht].
    eapply tuned_same; [..| exact Ht]; reflexivity.
  - injection He as <-. unfold __onStickyToggle.
    destruct checked as [b |]; [| exact Ht].
    assert (Hb : tuned (set_stickyPitchBend b o))
      by (eapply tuned_same; [..| exact Ht]; reflexivity).
    destruct mouseup as [f |]; [| exact Hb].
    apply tuned_detune_stop, Hb.
Qed.

Lemma run_tuned (es : list Event) :
  forall o, consistent o -> tuned o ->
    exists o', run pow es o = Some o' /\ consistent o' /\ tuned o'.
Proof.
  induction es as [| e es IH]; intros o Hc Ht.
  - exists o. split; [reflexivity |]. split; assumption.
  - destruct (consistent_handle pow e o Hc) as (o1 & He & Hc1).
    simpl. rewrite He. apply IH; [exact Hc1 |].
    exact (tuned_handle e o o1 Hc Ht He).
Qed.

(** X7: after any run, the oscillator of every active note has the detune
    of the [detune] field: the voices that sounded through a pitch bend and
    the voices started since are detuned alike. *)
Theorem active_voices_tuned (es : list Event) :
  exists o,
    run pow es new_BaseOscillator = Some o
    /\ forall note r, activeNotes o !! note = Some r ->
         exists v, voices o !! r = Some v
                   /\ osc_detune (oscillator v) = detune o.
Proof.
  destruct (run_tuned es _ consistent_new) as (o & Hrun & Hc & Ht).
  { intros note r v Hr. cbn [activeNotes new_BaseOscillator] in Hr.
    rewrite lookup_empty in Hr. discriminate. }
  exists o. split; [exact Hrun |]. intros note r Hr.
  destruct (proj1 Hc _ _ Hr) as (v & Hv & _).
  exists v. split; [exact Hv |]. eapply Ht; eassumption.
Qed.

(** ** Releasing a note twice *)

Lemma stop_idempotent (note : Z) (o : BaseOscillator) :
  consistent o -> stop note (stop note o) = stop note o.
Proof.
  intros Hc. destruct (sustainActive o) eqn:Hsa.
  - destruct (bool_decide_reflect (is_Some (activeNotes o !! note)))
      as [Hsome | Hnone].
    + destruct (set_has note (sustainedNotes o)) eqn:Hhas.
      * assert (Hs : stop note o = o).
        { unfold stop. rewrite Hsa, Hhas.
          rewrite bool_decide_eq_true_2 by exact Hsome. reflexivity. }
        rewrite !Hs. reflexivity.
      * assert (Hs : stop note o
                     = set_sustainedNotes (set_add note (sustainedNotes o)) o).
        { unfold stop. rewrite Hsa, Hhas.
          rewrite bool_decide_eq_true_2 by exact Hsome. reflexivity. }
        rewrite Hs. unfold stop at 1.
        cbn [sustainActive activeNotes sustainedNotes set_sustainedNotes].
        rewrite Hsa, set_has_add.
        rewrite !bool_decide_eq_true_2 by done. reflexivity.
    + assert (Hs : stop note o = o).
      { unfold stop. rewrite Hsa.
        rewrite bool_decide_eq_false_2 by exact Hnone. reflexivity. }
      rewrite !Hs. reflexivity.
  - assert (Hs : stop note o = get_stop note o).
    { unfold stop. rewrite Hsa. reflexivity. }
    rewrite Hs. unfold stop.
    destruct (get_stop_scalars note o) as (_ & _ & _ & -> & _).
    rewrite Hsa. unfold get_stop at 1.
    rewrite (get_stop_inactive o note Hc). reflexivity.
Qed.

Lemma isNoteOn_stop (note : Z) (o : BaseOscillator) :
  isNoteOn (stop note o) = isNoteOn o.
Proof.
  unfold stop. destruct (sustainActive o).
  - destruct (_ && _); reflexivity.
  - apply get_stop_scalars.
Qed.

(** X11: after any run, [noteOff] for a note a second time changes nothing
    more, sustain active or not. *)
Theorem noteOff_idempotent (es : list Event) :
  exists o,
    run pow es new_BaseOscillator = Some o
    /\ forall note,
         __onNoteOff note (__onNoteOff note o) = __onNoteOff note o.
Proof.
  destruct (run_new pow es) as (o & Hrun & Hc).
  exists o. split; [exact Hrun |]. intros note.
  assert (Hc2 : consistent (set_isNoteOn false o))
    by (eapply consistent_scalar; [..| exact Hc]; reflexivity).
  assert (Heta : forall o3, isNoteOn o3 = false -> set_isNoteOn false o3 = o3).
  { intros [] Hin. simpl in Hin. subst. reflexivity. }
  unfold __onNoteOff.
  rewrite (Heta (stop note (set_isNoteOn false o)))
    by (rewrite isNoteOn_stop; reflexivity).
  apply stop_idempotent, Hc2.
Qed.

(** ** The pedal, pressed and released *)

Lemma stop_sustained_empty (fuel : nat) :
  forall (index : nat) (o : BaseOscillator),
    Forall (fun e => e = None) (sustainedNotes o) ->
    (length (sustainedNotes o) - index < fuel)%nat ->
    stop_sustained fuel index o = Some o.
Proof.
  induction fuel as [| fuel IH]; intros index o Hall Hfuel; [lia |].
  simpl. destruct (sustainedNotes o !! index) as [slot |] eqn:Hslot;
    [| reflexivity].
  pose proof (lookup_lt_Some _ _ _ Hslot) as Hlt.
  rewrite Forall_lookup in Hall. rewrite (Hall _ _ Hslot).
  apply IH; [apply Forall_lookup, Hall | lia].
Qed.

Lemma pedal_up_clear_handle (e : Event) (o o' : BaseOscillator) :
  consistent o -> pedal_up_clear o -> handle pow e o = Some o' ->
  pedal_up_clear o'.
Proof.
  unfold pedal_up_clear. intros Hc Hp He.
  destruct e as [n0 velocity | n0 | | | fader | input | f | r0
                | target_id | checked mouseup];
    simpl in He.
  - injection He as <-. unfold __onNoteOn.
    assert (Hc2 : consistent (set_isNoteOn true o))
      by (eapply consistent_scalar; [..| exact Hc]; reflexivity).
    destruct (start_spec pow n0 velocity _ Hc2)
      as (_ & _ & _ & Hsus & _ & _ & Hset).
    rewrite start_eq.
    cbn [sustainActive set_activeNotes set_voices].
    destruct (get_stop_scalars n0 (set_isNoteOn true o))
      as (_ & _ & _ & -> & _).
    intros Hsa n. rewrite <- start_eq.
    destruct (decide (n = n0)) as [-> | Hne]; [exact Hsus |].
    rewrite (Hset n Hne). apply Hp, Hsa.
  - injection He as <-. unfold __onNoteOff, stop.
    cbn [sustainActive set_isNoteOn]. destruct (sustainActive o) eqn:Hsa.
    + destruct (_ && _); cbn; rewrite Hsa; discriminate.
    + assert (Hc2 : consistent (set_isNoteOn false o))
        by (eapply consistent_scalar; [..| exact Hc]; reflexivity).
      intros _ n. destruct (get_stop_spec n0 _ Hc2) as (_ & _ & ->).
      cbn [sustainedNotes set_isNoteOn]. rewrite (Hp eq_refl n).
      apply andb_false_r.
  - injection He as <-. discriminate.
  - destruct (__onSustainOff_spec o Hc) as (o2 & Hrun & _ & Hnone).
    rewrite Hrun in He. injection He as <-. intros _. exact Hnone.
  - injection He as <-. destruct fader; exact Hp.
  - injection He as <-. destruct input; exact Hp.
  - injection He as <-. unfold __onDetuneStop.
    destruct f; [| exact Hp]. destruct (stickyPitchBend o); exact Hp.
  - injection He as <-. unfold dispatch_ended.
    destruct (voices o !! r0) as [v0 |]; [| exact Hp].
    destruct (osc_stopped (oscillator v0)); exact Hp.
  - injection He as <-. unfold __onWaveform.
    destruct target_id as [id |]; [| exact Hp].
    destruct (negb _); [exact Hp |].
    destruct (waveform_of_key _); exact Hp.
  - injection He as <-. unfold __onStickyToggle, __onDetuneStop.
    destruct checked as [b |]; [| exact Hp].
    destruct mouseup as [f |]; [| exact Hp].
    destruct f; [| exact Hp]. destruct b; exact Hp.
Qed.

Lemma run_pedal_up_clear (es : list Event) :
  forall o, consistent o -> pedal_up_clear o ->
    exists o', run pow es o = Some o' /\ pedal_up_clear o'.
Proof.
  induction es as [| e es IH]; intros o Hc Hp.
  - exists o. split; [reflexivity | exact Hp].
  - destruct (consistent_handle pow e o Hc) as (o1 & He & Hc1).
    simpl. rewrite He. apply IH; [exact Hc1 |].
    exact (pedal_up_clear_handle e o o1 Hc Hp He).
Qed.

(** X12: after any run that leaves the pedal up, no note is sustained, and
    pressing and releasing the pedal with nothing in between gives back the
    very same oscillator. *)
Theorem pedal_round_trip (es : list Event) :
  exists o,
    run pow es new_BaseOscillator = Some o
    /\ (sustainActive o = false ->
        (forall n, set_has n (sustainedNotes o) = false)
        /\ run pow [SustainOn; SustainOff] o = Some o).
Proof.
  destruct (run_pedal_up_clear es _ consistent_new) as (o & Hrun & Hp).
  { intros _ n. reflexivity. }
  exists o. split; [exact Hrun |]. intros Hsa.
  split; [apply Hp, Hsa |].
  cbn [run handle]. unfold __onSustainOff, __onSustainOn.
  cbn [sustainedNotes set_sustainActive].
  rewrite stop_sustained_empty.
  - f_equal. destruct o. simpl in Hsa. subst. reflexivity.
  - apply set_has_empty_slots, Hp, Hsa.
  - simpl. lia.
Qed.

(** ** Bend and release *)


(** ** Waveforms *)



(** ** The end of a voice *)





End FurtherOscillatorProperties.


(** * Properties of the MIDI listeners *)

Lemma decoded_release (status note value : byte) :
  0x80 <= byte_to_Z status <= 0x8F
  \/ (0x90 <= byte_to_Z status <= 0x9F /\ value = x00) ->
  exists channel,
    getEventForData [status; note; value]
    = Some (noteOff channel (Some (byte_to_Z note))).
Proof.
  pose proof (byte_to_Z_range status).
  intros [Hs | [Hs ->]]; rewrite getEventForData_cons by lia; cbv zeta;
    decode_command; cbn [orb andb lookup list_lookup fmap option_fmap
                         option_map ToNumber].
  - eexists. reflexivity.
  - rewrite truthy_velocity. eexists. reflexivity.
Qed.

Lemma decoded_pedal (status value : byte) :
  0xB0 <= byte_to_Z status <= 0xBF ->
  exists channel,
    getEventForData [status; x40; value]
    = Some (if Byte.eqb value x00 then sustainOff channel
            else sustainOn channel).
Proof.
  intros Hs. pose proof (byte_to_Z_range status).
  rewrite getEventForData_cons by lia. cbv zeta. decode_command.
  cbn [lookup list_lookup fmap option_fmap option_map ToNumber].
  rewrite truthy_data_byte. eexists.
  destruct (Byte.eqb value x00); reflexivity.
Qed.

Lemma decoded_unheard (status data1 data2 : byte) :
  (0x90 <= byte_to_Z status <= 0x9F /\ data2 <> x00)
  \/ 0xE0 <= byte_to_Z status <= 0xEF
  \/ (0xB0 <= byte_to_Z status <= 0xBF /\ data1 = x01) ->
  exists e,
    getEventForData [status; data1; data2] = Some e
    /\ constructor_listener e = None.
Proof.
  pose proof (byte_to_Z_range status).
  intros [[Hs Hne] | [Hs | [Hs ->]]]; rewrite getEventForData_cons by lia;
    cbv zeta; decode_command;
    cbn [orb andb lookup list_lookup fmap option_fmap option_map ToNumber].
  - rewrite truthy_velocity.
    apply byte_eqb_false in Hne. rewrite Hne. eexists. split; reflexivity.
  - eexists. split; reflexivity.
  - eexists. split; reflexivity.
Qed.

(** X15: a Note-Off message, or a Note-On message with velocity byte 0,
    reaches the constructor's [noteOff] listener as [__onNoteOff] of its
    note, on whatever channel it was sent; the sustain control reaches
    [__onSustainOn] for a value byte other than 0 and [__onSustainOff] for
    0.  For a Note-On message with another velocity byte, and for Pitch
    Wheel and modulation messages, the constructor has added no listener. *)
Theorem midi_listeners :
  (forall status note value : byte,
      0x80 <= byte_to_Z status <= 0x8F
      \/ (0x90 <= byte_to_Z status <= 0x9F /\ value = x00) ->
      exists listener,
        onMIDIMessage [status; note; value] = Some listener
        /\ forall o, listener o = Some (__onNoteOff (byte_to_Z note) o))
  /\ (forall status value : byte,
        0xB0 <= byte_to_Z status <= 0xBF ->
        exists listener,
          onMIDIMessage [status; x40; value] = Some listener
          /\ forall o,
               listener o
               = if Byte.eqb value x00 then __onSustainOff o
                 else Some (__onSustainOn o))
  /\ (forall status data1 data2 : byte,
        (0x90 <= byte_to_Z status <= 0x9F /\ data2 <> x00)
        \/ 0xE0 <= byte_to_Z status <= 0xEF
        \/ (0xB0 <= byte_to_Z status <= 0xBF /\ data1 = x01) ->
        onMIDIMessage [status; data1; data2] = None).
Proof.
  split; [| split].
  - intros status note value Hs. unfold onMIDIMessage.
    destruct (decoded_release status note value Hs) as (channel & ->).
    eexists. split; reflexivity.
  - intros status value Hs. unfold onMIDIMessage.
    destruct (decoded_pedal status value Hs) as (channel & ->).
    destruct (Byte.eqb value x00); eexists; split; reflexivity.
  - intros status data1 data2 Hs. unfold onMIDIMessage.
    destruct (decoded_unheard status data1 data2 Hs) as (e & -> & He).
    exact He.
Qed.

(** * Properties of the oscillator module *)

Lemma class_kept (id : string) : entry_waveform BaseOscillator_class <> Some id.
Proof. discriminate. Qed.

(** The class is the first element of [oscillators], whatever has been
    checked and unchecked. *)
Lemma toggle_class_first (changes : list (bool * string)) :
  forall oscillators rest,
    oscillators = BaseOscillator_class :: rest ->
    exists rest', toggle changes oscillators = BaseOscillator_class :: rest'.
Proof.
  induction changes as [| [checked id] changes IH]; intros oscillators rest ->.
  - exists rest. reflexivity.
  - simpl. destruct checked.
    + eapply IH. unfold enableOscillator. rewrite <- app_comm_cons.
      reflexivity.
    + eapply IH. unfold enableOscillator.
      rewrite filter_cons_True by apply class_kept. reflexivity.
Qed.

(** X16: checking a waveform appends one new instance to [oscillators],
    also when there is one already: the elements there stay where they are,
    and the new last element is a fresh oscillator whose [waveform] is the
    id, so that, when the id is a waveform key, the voice it starts has
    that type.  Unchecking removes exactly the instances with that waveform
    and keeps the rest in order, the class among them; and checking then
    unchecking a waveform is the same as unchecking it. *)
Theorem enableOscillator_uncheck (id : string)
  (oscillators : list OscillatorsEntry) :
  let after := enableOscillator false id oscillators in
  let checked := enableOscillator true id oscillators in
  (forall osc, osc ∈ after <-> osc ∈ oscillators /\ entry_waveform osc <> Some id)
  /\ after `sublist_of` oscillators
  /\ (forall i, BaseOscillator_instance i ∈ after -> instance_waveform i <> id)
  /\ enableOscillator false id after = after
  /\ enableOscillator false id checked = after
  /\ length checked = S (length oscillators)
  /\ (forall other,
        other <> id ->
        enableOscillator false id (enableOscillator true other oscillators)
        = enableOscillator true other after)
  /\ (forall k osc, oscillators !! k = Some osc -> checked !! k = Some osc)
  /\ (exists i,
        checked !! length oscillators = Some (BaseOscillator_instance i)
        /\ last checked = Some (BaseOscillator_instance i)
        /\ instance_waveform i = id
        /\ instance_activeNotes i = ∅
        /\ instance_sustainedNotes i = []
        /\ instance_voices i = []
        /\ instance_sustainActive i = false
        /\ instance_stickyPitchBend i = false
        /\ instance_isNoteOn i = false
        /\ instance_detune i = 0%float
        /\ instance_detuneAmount i = 2%float
        /\ (forall w, id = waveform_key w ->
              instance_oscillator i = Some (set_waveform w new_BaseOscillator)
              /\ forall pow note velocity,
                   osc_type
                   <$> (oscillator
                        <$> voices (start pow note velocity
                                      (set_waveform w new_BaseOscillator))
                            !! 0%nat)
                   = Some w)
        /\ ((forall w, id <> waveform_key w) -> instance_oscillator i = None)).
Proof.
  intros after checked. subst after checked. unfold enableOscillator.
  split; [| split; [| split; [| split; [| split; [| split; [| split;
    [| split]]]]]]].
  - intros osc. rewrite list_elem_of_filter. tauto.
  - apply sublist_filter.
  - intros i Hin. apply list_elem_of_filter in Hin as [Hne _].
    simpl in Hne. congruence.
  - rewrite list_filter_filter. apply list_filter_iff. tauto.
  - rewrite filter_app, filter_cons_False, filter_nil, app_nil_r;
      [reflexivity |]. simpl. tauto.
  - rewrite length_app. simpl. lia.
  - intros other Hne.
    rewrite filter_app, filter_cons_True, filter_nil; [reflexivity |].
    simpl. congruence.
  - intros k osc Hk. apply lookup_app_l_Some, Hk.
  - exists (new_instance id).
    split; [apply list_lookup_middle; reflexivity |].
    split; [apply last_snoc |].
    do 9 (split; [reflexivity |]).
    split.
    + intros w ->. split; [destruct w; reflexivity |].
      intros pow note velocity. destruct w; reflexivity.
    + intros Hnone. unfold instance_oscillator.
      cbn [instance_waveform new_instance].
      destruct (waveform_of_key id) as [w |] eqn:Hw; [| reflexivity].
      exfalso. apply (Hnone w).
      unfold waveform_of_key in Hw. apply find_some in Hw as [_ Heq].
      apply String.eqb_eq in Heq. exact Heq.
Qed.

(** X17: [getOscNodes] throws on every list [oscillators] that checking and
    unchecking can produce, before it has called any instance: the first
    element is always the class, which has no [__onNoteOn].  On a list of
    instances whose calls return, it would call each in turn and return one
    element per instance. *)
Theorem getOscNodes_throws
  (instance__onNoteOn : OscillatorInstance -> OscillatorInstance * bool)
  (changes : list (bool * string)) :
  let oscillators := toggle changes new_oscillators in
  head oscillators = Some BaseOscillator_class
  /\ getOscNodes instance__onNoteOn oscillators 0 = (oscillators, None)
  /\ (forall (instances : list OscillatorInstance) (pushed : nat),
        (forall i, i ∈ instances -> (instance__onNoteOn i).2 = true) ->
        getOscNodes instance__onNoteOn
          (BaseOscillator_instance <$> instances) pushed
        = (BaseOscillator_instance
             <$> ((fun i => (instance__onNoteOn i).1) <$> instances),
           Some (pushed + length instances)%nat)).
Proof.
  intros oscillators. subst oscillators.
  destruct (toggle_class_first changes new_oscillators [] eq_refl)
    as (rest & ->).
  split; [reflexivity |]. split; [reflexivity |].
  intros instances. induction instances as [| i instances IH];
    intros pushed Hret.
  - simpl. f_equal. f_equal. lia.
  - rewrite !fmap_cons. cbn [getOscNodes].
    pose proof (Hret i ltac:(left)) as Hi.
    destruct (instance__onNoteOn i) as [i' returned]. simpl in Hi. subst.
    rewrite IH by (intros j Hj; apply Hret; right; exact Hj).
    simpl. f_equal. f_equal. lia.
Qed.


(** * A note pressed and released *)

Lemma set_delete_absent (note : Z) (s : list (option Z)) :
  set_has note s = false -> set_delete note s = s.
Proof.
  unfold set_delete. induction s as [| e s IH]; [reflexivity |].
  rewrite set_has_cons. intros Hor.
  apply orb_false_iff in Hor as [He Hs].
  rewrite fmap_cons, He, (IH Hs). reflexivity.
Qed.

Section PressAndRelease.

Variable pow : float -> float -> float.

(** X18: after any run that leaves the pedal up, pressing a note that is
    not active and releasing it again gives back the oscillator as it was,
    but for the one voice the press created, which is in the store,
    stopped: [activeNotes] and [sustainedNotes] are what they were and the
    note has no sounding voice. *)
Theorem press_and_release (es : list Event) :
  exists o,
    run pow es new_BaseOscillator = Some o
    /\ forall note velocity,
         sustainActive o = false -> activeNotes o !! note = None ->
         let o' := __onNoteOff note (__onNoteOn pow note velocity o) in
         o' = set_isNoteOn false
                (set_voices
                   (voices o
                    ++ [stop_oscillator (new_voice pow note velocity o)])
                   o)
         /\ activeNotes o' = activeNotes o
         /\ sustainedNotes o' = sustainedNotes o
         /\ live_voices note o' = [].
Proof.
  destruct (run_new pow es) as (o & Hrun & Hc).
  exists o. split; [exact Hrun |]. intros note velocity Hsa Hnone o'.
  assert (Heq : o' = set_isNoteOn false
                       (set_voices
                          (voices o
                           ++ [stop_oscillator
                                 (new_voice pow note velocity o)])
                          o)).
  { subst o'. unfold __onNoteOn. rewrite start_eq.
    assert (Hget : get_stop note (set_isNoteOn true o) = set_isNoteOn true o).
    { unfold get_stop. cbn [activeNotes set_isNoteOn]. rewrite Hnone.
      reflexivity. }
    rewrite Hget. cbn [voices set_isNoteOn].
    unfold __onNoteOff, stop.
    cbn [sustainActive set_isNoteOn set_activeNotes set_voices].
    rewrite Hsa. unfold get_stop.
    cbn [activeNotes set_isNoteOn set_activeNotes set_voices].
    rewrite lookup_insert_eq. unfold entry_stop.
    cbn [voices set_isNoteOn set_activeNotes set_voices].
    rewrite list_lookup_middle by reflexivity.
    cbn [activeNotes sustainedNotes voices stop_note new_voice
         set_isNoteOn set_activeNotes set_voices set_sustainedNotes].
    rewrite (delete_insert_id _ _ _ Hnone).
    rewrite (set_delete_absent note (sustainedNotes o))
      by (apply (sustained_inactive note o Hc Hnone)).
    replace (length (voices o)) with (length (voices o) + 0)%nat at 1 by lia.
    rewrite insert_app_r. reflexivity. }
  split; [exact Heq |]. rewrite Heq.
  split; [reflexivity |]. split; [reflexivity |].
  assert (Hc' : consistent o').
  { subst o'. unfold __onNoteOff, __onNoteOn.
    apply consistent_stop.
    eapply consistent_scalar; [reflexivity | reflexivity | reflexivity |].
    apply consistent_start.
    eapply consistent_scalar; [..| exact Hc]; reflexivity. }
  rewrite <- Heq, (live_voices_entry note o' Hc'), Heq.
  cbn [activeNotes set_isNoteOn set_voices]. rewrite Hnone. reflexivity.
Qed.

End PressAndRelease.
